(** * Recipe import parser ([recipes/services.py]): model and properties

    The file embeds [RecipeParserService] in Rocq.  A Python [str] is a list
    of Unicode code points, the [re] patterns of the service are terms of a
    small regular-expression language run by a backtracking matcher, the
    page is a tree of elements and text nodes queried the way the service
    queries BeautifulSoup, and every method of the service is a function of
    the same name. *)

From Stdlib Require Import Ascii String DecimalString.
From Stdlib Require Import List NArith ZArith Lia Bool.
Import ListNotations.

Set Implicit Arguments.

(** ** Python strings *)

Module Str.

Definition cp := N.
Definition str := list cp.

Local Open Scope N_scope.

(** Source literals are written as UTF-8 text and decoded to code points. *)
Fixpoint utf8 (bs : list N) : str :=
  match bs with
  | [] => []
  | b0 :: t0 =>
    if b0 <? 128 then b0 :: utf8 t0
    else match t0 with
    | [] => [b0]
    | b1 :: t1 =>
      if b0 <? 224 then ((b0 - 192) * 64 + (b1 - 128)) :: utf8 t1
      else match t1 with
      | [] => [b0; b1]
      | b2 :: t2 =>
        if b0 <? 240
        then ((b0 - 224) * 4096 + (b1 - 128) * 64 + (b2 - 128)) :: utf8 t2
        else match t2 with
        | [] => [b0; b1; b2]
        | b3 :: t3 =>
          ((b0 - 240) * 262144 + (b1 - 128) * 4096 + (b2 - 128) * 64 + (b3 - 128))
            :: utf8 t3
        end
      end
    end
  end.

Definition u (s : string) : str :=
  utf8 (map N_of_ascii (list_ascii_of_string s)).

Definition in_range (lo hi c : cp) : bool := (lo <=? c) && (c <=? hi).

(** [str.isspace] on one code point; also the class [\s] of [re]. *)
Definition isspace (c : cp) : bool :=
  in_range 9 13 c || in_range 28 32 c || (c =? 133) || (c =? 160)
  || (c =? 5760) || in_range 8192 8202 c || (c =? 8232) || (c =? 8233)
  || (c =? 8239) || (c =? 8287) || (c =? 12288).

(** The decimal digits, the characters of general category Nd, come in
    runs of ten, the value of a digit being its offset in its run.  These
    are the first code points of the runs of the Unicode database, version
    14.0, that CPython 3.11 carries. *)
Definition decimal_blocks : list cp :=
  [
   48; 1632; 1776; 1984; 2406; 2534; 2662; 2790; 2918; 3046; 3174; 3302; 3430;
   3558; 3664; 3792; 3872; 4160; 4240; 6112; 6160; 6470; 6608; 6784; 6800;
   6992; 7088; 7232; 7248; 42528; 43216; 43264; 43472; 43504; 43600; 44016;
   65296; 66720; 68912; 69734; 69872; 69942; 70096; 70384; 70736; 70864;
   71248; 71360; 71472; 71904; 72016; 72784; 73040; 73120; 92768; 92864;
   93008; 120782; 120792; 120802; 120812; 120822; 123200; 123632; 125264;
   130032 ].

Definition digit_value (c : cp) : option N :=
  match find (fun b => in_range b (b + 9) c) decimal_blocks with
  | Some b => Some (c - b)
  | None => None
  end.

(** [str.isdecimal] on one code point; also the class [\d] of [re] on
    [str] patterns. *)
Definition isdecimal (c : cp) : bool :=
  match digit_value c with Some _ => true | None => false end.

(** [str.isalnum] on one code point: the inclusive ranges of the
    alphanumeric characters of the same database. *)
Definition alnum_ranges : list (cp * cp) :=
  [
   (48, 57); (65, 90); (97, 122); (170, 170); (178, 179); (181, 181);
   (185, 186); (188, 190); (192, 214); (216, 246); (248, 705); (710, 721);
   (736, 740); (748, 748); (750, 750); (880, 884); (886, 887); (890, 893);
   (895, 895); (902, 902); (904, 906); (908, 908); (910, 929); (931, 1013);
   (1015, 1153); (1162, 1327); (1329, 1366); (1369, 1369); (1376, 1416);
   (1488, 1514); (1519, 1522); (1568, 1610); (1632, 1641); (1646, 1647);
   (1649, 1747); (1749, 1749); (1765, 1766); (1774, 1788); (1791, 1791);
   (1808, 1808); (1810, 1839); (1869, 1957); (1969, 1969); (1984, 2026);
   (2036, 2037); (2042, 2042); (2048, 2069); (2074, 2074); (2084, 2084);
   (2088, 2088); (2112, 2136); (2144, 2154); (2160, 2183); (2185, 2190);
   (2208, 2249); (2308, 2361); (2365, 2365); (2384, 2384); (2392, 2401);
   (2406, 2415); (2417, 2432); (2437, 2444); (2447, 2448); (2451, 2472);
   (2474, 2480); (2482, 2482); (2486, 2489); (2493, 2493); (2510, 2510);
   (2524, 2525); (2527, 2529); (2534, 2545); (2548, 2553); (2556, 2556);
   (2565, 2570); (2575, 2576); (2579, 2600); (2602, 2608); (2610, 2611);
   (2613, 2614); (2616, 2617); (2649, 2652); (2654, 2654); (2662, 2671);
   (2674, 2676); (2693, 2701); (2703, 2705); (2707, 2728); (2730, 2736);
   (2738, 2739); (2741, 2745); (2749, 2749); (2768, 2768); (2784, 2785);
   (2790, 2799); (2809, 2809); (2821, 2828); (2831, 2832); (2835, 2856);
   (2858, 2864); (2866, 2867); (2869, 2873); (2877, 2877); (2908, 2909);
   (2911, 2913); (2918, 2927); (2929, 2935); (2947, 2947); (2949, 2954);
   (2958, 2960); (2962, 2965); (2969, 2970); (2972, 2972); (2974, 2975);
   (2979, 2980); (2984, 2986); (2990, 3001); (3024, 3024); (3046, 3058);
   (3077, 3084); (3086, 3088); (3090, 3112); (3114, 3129); (3133, 3133);
   (3160, 3162); (3165, 3165); (3168, 3169); (3174, 3183); (3192, 3198);
   (3200, 3200); (3205, 3212); (3214, 3216); (3218, 3240); (3242, 3251);
   (3253, 3257); (3261, 3261); (3293, 3294); (3296, 3297); (3302, 3311);
   (3313, 3314); (3332, 3340); (3342, 3344); (3346, 3386); (3389, 3389);
   (3406, 3406); (3412, 3414); (3416, 3425); (3430, 3448); (3450, 3455);
   (3461, 3478); (3482, 3505); (3507, 3515); (3517, 3517); (3520, 3526);
   (3558, 3567); (3585, 3632); (3634, 3635); (3648, 3654); (3664, 3673);
   (3713, 3714); (3716, 3716); (3718, 3722); (3724, 3747); (3749, 3749);
   (3751, 3760); (3762, 3763); (3773, 3773); (3776, 3780); (3782, 3782);
   (3792, 3801); (3804, 3807); (3840, 3840); (3872, 3891); (3904, 3911);
   (3913, 3948); (3976, 3980); (4096, 4138); (4159, 4169); (4176, 4181);
   (4186, 4189); (4193, 4193); (4197, 4198); (4206, 4208); (4213, 4225);
   (4238, 4238); (4240, 4249); (4256, 4293); (4295, 4295); (4301, 4301);
   (4304, 4346); (4348, 4680); (4682, 4685); (4688, 4694); (4696, 4696);
   (4698, 4701); (4704, 4744); (4746, 4749); (4752, 4784); (4786, 4789);
   (4792, 4798); (4800, 4800); (4802, 4805); (4808, 4822); (4824, 4880);
   (4882, 4885); (4888, 4954); (4969, 4988); (4992, 5007); (5024, 5109);
   (5112, 5117); (5121, 5740); (5743, 5759); (5761, 5786); (5792, 5866);
   (5870, 5880); (5888, 5905); (5919, 5937); (5952, 5969); (5984, 5996);
   (5998, 6000); (6016, 6067); (6103, 6103); (6108, 6108); (6112, 6121);
   (6128, 6137); (6160, 6169); (6176, 6264); (6272, 6276); (6279, 6312);
   (6314, 6314); (6320, 6389); (6400, 6430); (6470, 6509); (6512, 6516);
   (6528, 6571); (6576, 6601); (6608, 6618); (6656, 6678); (6688, 6740);
   (6784, 6793); (6800, 6809); (6823, 6823); (6917, 6963); (6981, 6988);
   (6992, 7001); (7043, 7072); (7086, 7141); (7168, 7203); (7232, 7241);
   (7245, 7293); (7296, 7304); (7312, 7354); (7357, 7359); (7401, 7404);
   (7406, 7411); (7413, 7414); (7418, 7418); (7424, 7615); (7680, 7957);
   (7960, 7965); (7968, 8005); (8008, 8013); (8016, 8023); (8025, 8025);
   (8027, 8027); (8029, 8029); (8031, 8061); (8064, 8116); (8118, 8124);
   (8126, 8126); (8130, 8132); (8134, 8140); (8144, 8147); (8150, 8155);
   (8160, 8172); (8178, 8180); (8182, 8188); (8304, 8305); (8308, 8313);
   (8319, 8329); (8336, 8348); (8450, 8450); (8455, 8455); (8458, 8467);
   (8469, 8469); (8473, 8477); (8484, 8484); (8486, 8486); (8488, 8488);
   (8490, 8493); (8495, 8505); (8508, 8511); (8517, 8521); (8526, 8526);
   (8528, 8585); (9312, 9371); (9450, 9471); (10102, 10131); (11264, 11492);
   (11499, 11502); (11506, 11507); (11517, 11517); (11520, 11557);
   (11559, 11559); (11565, 11565); (11568, 11623); (11631, 11631);
   (11648, 11670); (11680, 11686); (11688, 11694); (11696, 11702);
   (11704, 11710); (11712, 11718); (11720, 11726); (11728, 11734);
   (11736, 11742); (11823, 11823); (12293, 12295); (12321, 12329);
   (12337, 12341); (12344, 12348); (12353, 12438); (12445, 12447);
   (12449, 12538); (12540, 12543); (12549, 12591); (12593, 12686);
   (12690, 12693); (12704, 12735); (12784, 12799); (12832, 12841);
   (12872, 12879); (12881, 12895); (12928, 12937); (12977, 12991);
   (13312, 19903); (19968, 42124); (42192, 42237); (42240, 42508);
   (42512, 42539); (42560, 42606); (42623, 42653); (42656, 42735);
   (42775, 42783); (42786, 42888); (42891, 42954); (42960, 42961);
   (42963, 42963); (42965, 42969); (42994, 43009); (43011, 43013);
   (43015, 43018); (43020, 43042); (43056, 43061); (43072, 43123);
   (43138, 43187); (43216, 43225); (43250, 43255); (43259, 43259);
   (43261, 43262); (43264, 43301); (43312, 43334); (43360, 43388);
   (43396, 43442); (43471, 43481); (43488, 43492); (43494, 43518);
   (43520, 43560); (43584, 43586); (43588, 43595); (43600, 43609);
   (43616, 43638); (43642, 43642); (43646, 43695); (43697, 43697);
   (43701, 43702); (43705, 43709); (43712, 43712); (43714, 43714);
   (43739, 43741); (43744, 43754); (43762, 43764); (43777, 43782);
   (43785, 43790); (43793, 43798); (43808, 43814); (43816, 43822);
   (43824, 43866); (43868, 43881); (43888, 44002); (44016, 44025);
   (44032, 55203); (55216, 55238); (55243, 55291); (63744, 64109);
   (64112, 64217); (64256, 64262); (64275, 64279); (64285, 64285);
   (64287, 64296); (64298, 64310); (64312, 64316); (64318, 64318);
   (64320, 64321); (64323, 64324); (64326, 64433); (64467, 64829);
   (64848, 64911); (64914, 64967); (65008, 65019); (65136, 65140);
   (65142, 65276); (65296, 65305); (65313, 65338); (65345, 65370);
   (65382, 65470); (65474, 65479); (65482, 65487); (65490, 65495);
   (65498, 65500); (65536, 65547); (65549, 65574); (65576, 65594);
   (65596, 65597); (65599, 65613); (65616, 65629); (65664, 65786);
   (65799, 65843); (65856, 65912); (65930, 65931); (66176, 66204);
   (66208, 66256); (66273, 66299); (66304, 66339); (66349, 66378);
   (66384, 66421); (66432, 66461); (66464, 66499); (66504, 66511);
   (66513, 66517); (66560, 66717); (66720, 66729); (66736, 66771);
   (66776, 66811); (66816, 66855); (66864, 66915); (66928, 66938);
   (66940, 66954); (66956, 66962); (66964, 66965); (66967, 66977);
   (66979, 66993); (66995, 67001); (67003, 67004); (67072, 67382);
   (67392, 67413); (67424, 67431); (67456, 67461); (67463, 67504);
   (67506, 67514); (67584, 67589); (67592, 67592); (67594, 67637);
   (67639, 67640); (67644, 67644); (67647, 67669); (67672, 67702);
   (67705, 67742); (67751, 67759); (67808, 67826); (67828, 67829);
   (67835, 67867); (67872, 67897); (67968, 68023); (68028, 68047);
   (68050, 68096); (68112, 68115); (68117, 68119); (68121, 68149);
   (68160, 68168); (68192, 68222); (68224, 68255); (68288, 68295);
   (68297, 68324); (68331, 68335); (68352, 68405); (68416, 68437);
   (68440, 68466); (68472, 68497); (68521, 68527); (68608, 68680);
   (68736, 68786); (68800, 68850); (68858, 68899); (68912, 68921);
   (69216, 69246); (69248, 69289); (69296, 69297); (69376, 69415);
   (69424, 69445); (69457, 69460); (69488, 69505); (69552, 69579);
   (69600, 69622); (69635, 69687); (69714, 69743); (69745, 69746);
   (69749, 69749); (69763, 69807); (69840, 69864); (69872, 69881);
   (69891, 69926); (69942, 69951); (69956, 69956); (69959, 69959);
   (69968, 70002); (70006, 70006); (70019, 70066); (70081, 70084);
   (70096, 70106); (70108, 70108); (70113, 70132); (70144, 70161);
   (70163, 70187); (70272, 70278); (70280, 70280); (70282, 70285);
   (70287, 70301); (70303, 70312); (70320, 70366); (70384, 70393);
   (70405, 70412); (70415, 70416); (70419, 70440); (70442, 70448);
   (70450, 70451); (70453, 70457); (70461, 70461); (70480, 70480);
   (70493, 70497); (70656, 70708); (70727, 70730); (70736, 70745);
   (70751, 70753); (70784, 70831); (70852, 70853); (70855, 70855);
   (70864, 70873); (71040, 71086); (71128, 71131); (71168, 71215);
   (71236, 71236); (71248, 71257); (71296, 71338); (71352, 71352);
   (71360, 71369); (71424, 71450); (71472, 71483); (71488, 71494);
   (71680, 71723); (71840, 71922); (71935, 71942); (71945, 71945);
   (71948, 71955); (71957, 71958); (71960, 71983); (71999, 71999);
   (72001, 72001); (72016, 72025); (72096, 72103); (72106, 72144);
   (72161, 72161); (72163, 72163); (72192, 72192); (72203, 72242);
   (72250, 72250); (72272, 72272); (72284, 72329); (72349, 72349);
   (72368, 72440); (72704, 72712); (72714, 72750); (72768, 72768);
   (72784, 72812); (72818, 72847); (72960, 72966); (72968, 72969);
   (72971, 73008); (73030, 73030); (73040, 73049); (73056, 73061);
   (73063, 73064); (73066, 73097); (73112, 73112); (73120, 73129);
   (73440, 73458); (73648, 73648); (73664, 73684); (73728, 74649);
   (74752, 74862); (74880, 75075); (77712, 77808); (77824, 78894);
   (82944, 83526); (92160, 92728); (92736, 92766); (92768, 92777);
   (92784, 92862); (92864, 92873); (92880, 92909); (92928, 92975);
   (92992, 92995); (93008, 93017); (93019, 93025); (93027, 93047);
   (93053, 93071); (93760, 93846); (93952, 94026); (94032, 94032);
   (94099, 94111); (94176, 94177); (94179, 94179); (94208, 100343);
   (100352, 101589); (101632, 101640); (110576, 110579); (110581, 110587);
   (110589, 110590); (110592, 110882); (110928, 110930); (110948, 110951);
   (110960, 111355); (113664, 113770); (113776, 113788); (113792, 113800);
   (113808, 113817); (119520, 119539); (119648, 119672); (119808, 119892);
   (119894, 119964); (119966, 119967); (119970, 119970); (119973, 119974);
   (119977, 119980); (119982, 119993); (119995, 119995); (119997, 120003);
   (120005, 120069); (120071, 120074); (120077, 120084); (120086, 120092);
   (120094, 120121); (120123, 120126); (120128, 120132); (120134, 120134);
   (120138, 120144); (120146, 120485); (120488, 120512); (120514, 120538);
   (120540, 120570); (120572, 120596); (120598, 120628); (120630, 120654);
   (120656, 120686); (120688, 120712); (120714, 120744); (120746, 120770);
   (120772, 120779); (120782, 120831); (122624, 122654); (123136, 123180);
   (123191, 123197); (123200, 123209); (123214, 123214); (123536, 123565);
   (123584, 123627); (123632, 123641); (124896, 124902); (124904, 124907);
   (124909, 124910); (124912, 124926); (124928, 125124); (125127, 125135);
   (125184, 125251); (125259, 125259); (125264, 125273); (126065, 126123);
   (126125, 126127); (126129, 126132); (126209, 126253); (126255, 126269);
   (126464, 126467); (126469, 126495); (126497, 126498); (126500, 126500);
   (126503, 126503); (126505, 126514); (126516, 126519); (126521, 126521);
   (126523, 126523); (126530, 126530); (126535, 126535); (126537, 126537);
   (126539, 126539); (126541, 126543); (126545, 126546); (126548, 126548);
   (126551, 126551); (126553, 126553); (126555, 126555); (126557, 126557);
   (126559, 126559); (126561, 126562); (126564, 126564); (126567, 126570);
   (126572, 126578); (126580, 126583); (126585, 126588); (126590, 126590);
   (126592, 126601); (126603, 126619); (126625, 126627); (126629, 126633);
   (126635, 126651); (127232, 127244); (130032, 130041); (131072, 173791);
   (173824, 177976); (177984, 178205); (178208, 183969); (183984, 191456);
   (194560, 195101); (196608, 201546) ].

Definition isalnum (c : cp) : bool :=
  existsb (fun r => in_range (fst r) (snd r) c) alnum_ranges.

(** The class [\w] of [re] on [str] patterns: alphanumeric or underscore. *)
Definition isword (c : cp) : bool := isalnum c || (c =? 95).

(** [str.lower] on one code point, for the Latin-1 and Cyrillic capitals. *)
Definition lower_cp (c : cp) : cp :=
  if in_range 65 90 c then c + 32
  else if in_range 192 222 c && negb (c =? 215) then c + 32
  else if in_range 1024 1039 c then c + 80
  else if in_range 1040 1071 c then c + 32
  else c.

Definition lower (s : str) : str := map lower_cp s.

Definition eqb (a b : str) : bool :=
  if list_eq_dec N.eq_dec a b then true else false.

Fixpoint lstrip (s : str) : str :=
  match s with
  | c :: t => if isspace c then lstrip t else s
  | [] => []
  end.

(** [str.strip()] *)
Definition strip (s : str) : str := rev (lstrip (rev (lstrip s))).

(** [str.replace(old, new)] for a one-character [old]. *)
Definition replace (old : cp) (new : str) (s : str) : str :=
  flat_map (fun c => if c =? old then new else [c]) s.

(** [sep.join(parts)] *)
Fixpoint join (sep : str) (parts : list str) : str :=
  match parts with
  | [] => []
  | [p] => p
  | p :: rest => p ++ sep ++ join sep rest
  end.

Fixpoint startswith (p s : str) : bool :=
  match p, s with
  | [], _ => true
  | a :: p', b :: s' => (a =? b) && startswith p' s'
  | _ :: _, [] => false
  end.

(** [prefix in s] for strings: substring test. *)
Fixpoint contains (p s : str) : bool :=
  startswith p s || match s with [] => false | _ :: t => contains p t end.

(** [str(i)] for a non-negative integer. *)
Definition of_nat (n : nat) : str :=
  map N_of_ascii
    (list_ascii_of_string (NilZero.string_of_uint (Nat.to_uint n))).

(** The number a run of decimal digits writes. *)
Definition decimal_value (s : str) : Z :=
  fold_left
    (fun acc c => match digit_value c with
                  | Some d => (10 * acc + Z.of_N d)%Z
                  | None => acc
                  end) s 0%Z.

(** [sys.get_int_max_str_digits()]: the longest run of digits [int]
    converts; it raises [ValueError] on a longer one. *)
Definition int_max_str_digits : nat := 4300.

End Str.

Import Str.

(** ** The [re] module: patterns and the backtracking matcher *)

Module Re.

(** The constructs the patterns of the service use.  Repetition is only
    ever applied to a character class there, so [Star] and [StarLazy] take
    a class; [x+] is [x] followed by [x*]. *)
Inductive regex : Type :=
| Eps
| Chr (p : cp -> bool)
| Seq (a b : regex)
| Alt (a b : regex)
| Opt (a : regex)
| Star (p : cp -> bool)
| StarLazy (p : cp -> bool)
| Group (n : nat) (a : regex)
| Ahead (a : regex)
| Eos.

(** Captured groups, most recent binding first. *)
Definition caps := list (nat * str).

Fixpoint group (c : caps) (n : nat) : option str :=
  match c with
  | [] => None
  | (m, w) :: c' => if Nat.eqb m n then Some w else group c' n
  end.

(** Remainders left by [p*], longest match first. *)
Fixpoint star_greedy (p : cp -> bool) (s : str) : list str :=
  match s with
  | x :: t => if p x then star_greedy p t ++ [s] else [s]
  | [] => [[]]
  end.

(** Remainders left by [p*?], shortest match first. *)
Fixpoint star_lazy (p : cp -> bool) (s : str) : list str :=
  s :: match s with
       | x :: t => if p x then star_lazy p t else []
       | [] => []
       end.

(** [run r c s]: every way [r] matches a prefix of [s], as the captures and
    the remainder of [s], in the order the backtracking engine tries them. *)
Fixpoint run (r : regex) (c : caps) (s : str) : list (caps * str) :=
  match r with
  | Eps => [(c, s)]
  | Chr p => match s with
             | x :: t => if p x then [(c, t)] else []
             | [] => []
             end
  | Seq a b => flat_map (fun cs => run b (fst cs) (snd cs)) (run a c s)
  | Alt a b => run a c s ++ run b c s
  | Opt a => run a c s ++ [(c, s)]
  | Star p => map (pair c) (star_greedy p s)
  | StarLazy p => map (pair c) (star_lazy p s)
  | Group n a =>
      map (fun cs => ((n, firstn (length s - length (snd cs)) s) :: fst cs, snd cs))
          (run a c s)
  | Ahead a => match run a c s with
               | [] => []
               | _ :: _ => [(c, s)]
               end
  | Eos => match s with
           | [] => [(c, s)]
           | [x] => if N.eqb x 10 then [(c, s)] else []
           | _ => []
           end
  end.

(** [re.match(r, s)]: the first way to match at the start of [s]. *)
Definition re_match (r : regex) (s : str) : option (caps * str) :=
  hd_error (run r [] s).

(** [re.search(r, s)]: the first position with a match; what precedes the
    match, the captures and what follows it. *)
Fixpoint search_from (r : regex) (skipped : str) (s : str) : option (str * caps * str) :=
  match re_match r s with
  | Some (c, rest) => Some (rev skipped, c, rest)
  | None => match s with
            | [] => None
            | x :: t => search_from r (x :: skipped) t
            end
  end.

Definition re_search (r : regex) (s : str) : option (str * caps * str) :=
  search_from r [] s.

(** [re.sub(r, '', s)] for a pattern that matches no empty string: every
    match, left to right, is deleted. *)
Fixpoint sub_empty_fuel (fuel : nat) (r : regex) (s : str) : str :=
  match fuel with
  | O => s
  | S fuel' =>
    match re_search r s with
    | None => s
    | Some (before, _, rest) =>
        if Nat.ltb (length before + length rest) (length s)
        then before ++ sub_empty_fuel fuel' r rest
        else s
    end
  end.

Definition re_sub_empty (r : regex) (s : str) : str :=
  sub_empty_fuel (S (length s)) r s.

(** Pattern syntax. *)
Definition cat (rs : list regex) : regex := fold_right Seq Eps rs.
Definition alt (r : regex) (rs : list regex) : regex := fold_left Alt rs r.
Definition plus (p : cp -> bool) : regex := Seq (Chr p) (Star p).
Definition plus_lazy (p : cp -> bool) : regex := Seq (Chr p) (StarLazy p).
Definition oneof (s : str) : cp -> bool := fun x => existsb (N.eqb x) s.
(** A literal character. *)
Definition chr (c : cp) : regex := Chr (N.eqb c).

(** [re._casefix._EXTRA_CASES]: for a lower-case character, the other
    lower-case characters with the same upper case. *)
Definition extra_cases : list (cp * list cp) :=
  ([
   (105, [305]); (115, [383]); (181, [956]); (305, [105]); (383, [115]);
   (837, [953; 8126]); (912, [8147]); (944, [8163]); (946, [976]);
   (949, [1013]); (952, [977]); (953, [837; 8126]); (954, [1008]);
   (956, [181]); (960, [982]); (961, [1009]); (962, [963]); (963, [962]);
   (966, [981]); (976, [946]); (977, [952]); (981, [966]); (982, [960]);
   (1008, [954]); (1009, [961]); (1013, [949]); (1074, [7296]);
   (1076, [7297]); (1086, [7298]); (1089, [7299]); (1090, [7300; 7301]);
   (1098, [7302]); (1123, [7303]); (7296, [1074]); (7297, [1076]);
   (7298, [1086]); (7299, [1089]); (7300, [1090; 7301]); (7301, [1090; 7300]);
   (7302, [1098]); (7303, [1123]); (7304, [42571]); (7777, [7835]);
   (7835, [7777]); (8126, [837; 953]); (8147, [912]); (8163, [944]);
   (42571, [7304]); (64261, [64262]); (64262, [64261]) ])%N.

Definition fixes (lo : cp) : list cp :=
  match find (fun kv => N.eqb (fst kv) lo) extra_cases with
  | Some kv => snd kv
  | None => []
  end.

(** A literal character under [re.IGNORECASE]: the compiler lowers the
    literal and puts its extra cases beside it, the matcher lowers the
    character it reads and looks for it among them. *)
Definition chr_i (c : cp) : regex :=
  Chr (fun x => existsb (N.eqb (lower_cp x)) (lower_cp c :: fixes (lower_cp c))).
Definition lit (s : str) : regex := cat (map chr s).
Definition lit_i (s : str) : regex := cat (map chr_i s).
(** [.] without and with [re.DOTALL]. *)
Definition dot : cp -> bool := fun x => negb (N.eqb x 10).
Definition dot_all : cp -> bool := fun _ => true.

End Re.

Import Re.

(** ** The per-item parser and the unit normalizer *)

Definition ch (a : ascii) : cp := N_of_ascii a.

(** A parsed ingredient: the dictionary with the keys ['name'],
    ['quantity'] and ['unit']; the quantity stays a string. *)
Record ingredient : Type := Ingredient {
  name : str;
  quantity : str;
  unit : str
}.

(** The dictionary of [_normalize_unit], in the order it is written. *)
Definition unit_map : list (str * str) :=
  [ (u "г", u "г");
    (u "гр", u "г");
    (u "грамм", u "г");
    (u "мл", u "мл");
    (u "кг", u "кг");
    (u "л", u "л");
    (u "литр", u "л");
    (u "шт", u "шт");
    (u "штук", u "шт");
    (u "ст.л", u "ст.л.");
    (u "ст л", u "ст.л.");
    (u "ч.л", u "ч.л.");
    (u "ч л", u "ч.л.");
    (u "стакан", u "стакан") ].

(** [s.replace('.', '').replace(' ', '')] *)
Definition drop_dots_spaces (s : str) : str :=
  replace (ch " ") [] (replace (ch ".") [] s).

(** The loop over [unit_map.items()], returning at the first key that
    equals the lowered input once periods and spaces are removed. *)
Fixpoint normalize_loop (items : list (str * str)) (unit_lower unit : str) : str :=
  match items with
  | [] => unit
  | (key, value) :: rest =>
      if Str.eqb (drop_dots_spaces key) unit_lower then value
      else normalize_loop rest unit_lower unit
  end.

Definition _normalize_unit (unit : str) : str :=
  let unit_lower := drop_dots_spaces (lower unit) in
  normalize_loop unit_map unit_lower unit.

(** [\d+(?:[.,]\d+)?] *)
Definition number : regex :=
  Seq (plus isdecimal) (Opt (Seq (Chr (oneof (u ".,"))) (plus isdecimal))).

(** [г|мл|кг|л|шт|ст\.?\s*л\.?|ч\.?\s*л\.?|стакан\w*|штук\w*], matched with
    [re.IGNORECASE]. *)
Definition unit_token : regex :=
  alt (lit_i (u "г"))
    [ lit_i (u "мл"); lit_i (u "кг"); lit_i (u "л"); lit_i (u "шт");
      cat [lit_i (u "ст"); Opt (chr (ch ".")); Star isspace; lit_i (u "л"); Opt (chr (ch "."))];
      cat [lit_i (u "ч"); Opt (chr (ch ".")); Star isspace; lit_i (u "л"); Opt (chr (ch "."))];
      Seq (lit_i (u "стакан")) (Star isword);
      Seq (lit_i (u "штук")) (Star isword) ].

(** The class [[–—-]]: en dash, em dash, hyphen. *)
Definition dash : cp -> bool := oneof (u "–—-").

(** [patterns[0]]: number, unit, optional separator, name. *)
Definition quantity_first : regex :=
  cat [ Group 1 number; Star isspace; Group 2 unit_token; Opt (chr (ch "."));
        Star isspace; Opt (Chr dash); Star isspace; Group 3 (plus dot) ].

(** [patterns[1]]: name, separator, number, unit. *)
Definition name_first : regex :=
  cat [ Group 1 (plus_lazy dot); Star isspace; Chr dash; Star isspace;
        Group 2 number; Star isspace; Group 3 unit_token ].

Definition patterns : list regex := [quantity_first; name_first].

(** [match.groups()] of a pattern with three groups; a group that took no
    part in the match is [None]. *)
Definition groups (c : caps) : option (str * str * str) :=
  match group c 1, group c 2, group c 3 with
  | Some g1, Some g2, Some g3 => Some (g1, g2, g3)
  | _, _, _ => None
  end.

(** The dictionary built from a match. *)
Definition of_match (quantity unit name : str) : ingredient :=
  {| name := strip name;
     quantity := replace (ch ",") (u ".") quantity;
     unit := _normalize_unit (strip unit) |}.

(** The loop over [patterns]; [idx] is the position of the head of [ps] in
    [patterns], which decides how the groups are read.  The outer [option]
    is [None] when no pattern matched; the inner one is [None] when
    [groups()] holds a [None], where the method would raise. *)
Fixpoint parse_loop (idx : nat) (ps : list regex) (text : str)
  : option (option ingredient) :=
  match ps with
  | [] => None
  | pattern :: rest =>
    match re_match pattern text with
    | Some (c, _) =>
        Some (match groups c with
              | Some (g1, g2, g3) =>
                  if Nat.eqb idx 0 then Some (of_match g1 g2 g3)
                  else Some (of_match g2 g3 g1)
              | None => None
              end)
    | None => parse_loop (S idx) rest text
    end
  end.

(** The result of a call: it returns a dictionary, returns [None], or
    raises. *)
Inductive outcome (A : Type) : Type :=
| Returns (a : A)
| Raises.
Arguments Raises {A}.

Definition _parse_ingredient_string (text : str) : outcome (option ingredient) :=
  match parse_loop 0 patterns text with
  | Some (Some i) => Returns (Some i)
  | Some None => Raises
  | None =>
      if Nat.ltb 2 (length text)
      then Returns (Some {| name := text; quantity := u "1"; unit := u "шт" |})
      else Returns None
  end.

Definition bind {A B : Type} (m : outcome A) (k : A -> outcome B) : outcome B :=
  match m with
  | Returns a => k a
  | Raises => Raises
  end.

Notation "x <- m ;; k" := (bind m (fun x => k))
  (at level 61, m at next level, right associativity).

(** ** The page: what BeautifulSoup hands to the service *)

Module Soup.

(** The classes of the strings of a tree: [NavigableString] for the text of
    an element, and its subclasses for a comment, a declaration and the
    like, and for the text inside [script], [style], [template], [rt] and
    [rp]. *)
Inductive string_type : Type :=
| NavigableString
| CData
| Comment
| Declaration
| Doctype
| ProcessingInstruction
| Script
| Stylesheet
| TemplateString
| RubyTextString
| RubyParenthesisString.

Definition string_type_eqb (a b : string_type) : bool :=
  match a, b with
  | NavigableString, NavigableString | CData, CData | Comment, Comment
  | Declaration, Declaration | Doctype, Doctype
  | ProcessingInstruction, ProcessingInstruction | Script, Script
  | Stylesheet, Stylesheet | TemplateString, TemplateString
  | RubyTextString, RubyTextString
  | RubyParenthesisString, RubyParenthesisString => true
  | _, _ => false
  end.

(** An element carries its tag name, the values of its [class] attribute,
    its other attributes and its children; a string carries its class and
    its text. *)
#[warnings="-register-all"]
Inductive node : Type :=
| Text (kind : string_type) (s : str)
| Elem (tag : str) (classes : list str) (attrs : list (str * str)) (kids : list node).

Definition tag_of (n : node) : str :=
  match n with Elem t _ _ _ => t | Text _ _ => [] end.
Definition classes_of (n : node) : list str :=
  match n with Elem _ cl _ _ => cl | Text _ _ => [] end.

(** [element.get(key)] *)
Definition get (n : node) (key : str) : option str :=
  match n with
  | Elem _ _ attrs _ =>
      match find (fun kv => Str.eqb (fst kv) key) attrs with
      | Some kv => Some (snd kv)
      | None => None
      end
  | Text _ _ => None
  end.

(** [element.interesting_string_types]: the classes of strings an element
    counts as its text, set from its tag name when the tree is built. *)
Definition interesting_string_types (tag : str) : list string_type :=
  if Str.eqb tag (u "script") then [Script]
  else if Str.eqb tag (u "style") then [Stylesheet]
  else if Str.eqb tag (u "template") then [TemplateString]
  else if Str.eqb tag (u "rt") then [RubyTextString]
  else if Str.eqb tag (u "rp") then [RubyParenthesisString]
  else [NavigableString; CData].

(** Every string below a node, in document order, with its class. *)
Fixpoint all_strings (n : node) : list (string_type * str) :=
  match n with
  | Text kind s => [(kind, s)]
  | Elem _ _ _ kids => flat_map all_strings kids
  end.

(** [element._all_strings()]: the strings below the element whose class is
    one of its interesting ones. *)
Definition strings (n : node) : list str :=
  map snd
    (filter (fun ks => existsb (string_type_eqb (fst ks))
                               (interesting_string_types (tag_of n)))
            (all_strings n)).

Definition nonempty (s : str) : bool :=
  match s with [] => false | _ :: _ => true end.

(** [element.get_text()] *)
Definition get_text (n : node) : str := concat (strings n).

(** [element.get_text(strip=True)]: every string stripped, the empty ones
    left out. *)
Definition get_text_strip (n : node) : str :=
  concat (filter nonempty (map strip (strings n))).

(** An element in its place: whether it is the first child of its tag name
    under its parent, and its ancestors, nearest first, each with the same
    flag. *)
Record located : Type := Located {
  here : node;
  first_of_type : bool;
  ancestors : list (node * bool)
}.

(** The node and everything below it, elements only, in document order. *)
Fixpoint walk (anc : list (node * bool)) (first : bool) (n : node) : list located :=
  match n with
  | Text _ _ => []
  | Elem _ _ _ kids =>
      Located n first anc ::
      (fix walk_kids (seen : list str) (ks : list node) : list located :=
         match ks with
         | [] => []
         | k :: ks' =>
             match k with
             | Text _ _ => walk_kids seen ks'
             | Elem t _ _ _ =>
                 walk ((n, first) :: anc) (negb (existsb (Str.eqb t) seen)) k
                 ++ walk_kids (t :: seen) ks'
             end
         end) [] kids
  end.

Definition descendants (n : node) : list located := tl (walk [] true n).

(** One compound selector: [tag], [.class], [[attr="value"]] and
    [:first-of-type], each optional. *)
Record compound : Type := Compound {
  c_tag : option str;
  c_class : option str;
  c_attr : option (str * str);
  c_first_of_type : bool
}.

(** A selector: its text in the source and the compounds it is made of,
    outermost first, joined by the descendant combinator. *)
Record selector : Type := Selector {
  css : string;
  path : list compound
}.

Definition matches_compound (c : compound) (n : node) (first : bool) : bool :=
  match n with
  | Text _ _ => false
  | Elem t cl _ _ =>
      match c_tag c with Some t' => Str.eqb t t' | None => true end
      && match c_class c with Some k => existsb (Str.eqb k) cl | None => true end
      && match c_attr c with
         | Some (a, v) => match get n a with Some v' => Str.eqb v' v | None => false end
         | None => true
         end
      && (negb (c_first_of_type c) || first)
  end.

(** The outer compounds, innermost first, against the ancestors, nearest
    first. *)
Fixpoint ancestors_match (outer : list compound) (anc : list (node * bool)) : bool :=
  match outer with
  | [] => true
  | c :: outer' =>
      match anc with
      | [] => false
      | (a, f) :: anc' =>
          if matches_compound c a f then ancestors_match outer' anc'
          else ancestors_match outer anc'
      end
  end.

Definition matches (sel : selector) (l : located) : bool :=
  match rev (path sel) with
  | [] => false
  | c :: outer =>
      matches_compound c (here l) (first_of_type l) && ancestors_match outer (ancestors l)
  end.

(** [soup.select_one(selector)] *)
Definition select_one (soup : node) (sel : selector) : option node :=
  option_map here (find (matches sel) (descendants soup)).

(** [element.find_all(tags)] *)
Definition find_all (n : node) (tags : list str) : list node :=
  map here (filter (fun l => existsb (Str.eqb (tag_of (here l))) tags) (descendants n)).

(** [soup.find(tag)] *)
Definition find_tag (soup : node) (tag : str) : option node :=
  hd_error (find_all soup [tag]).

(** [soup.find_all(tags, class_=re.compile(word))]: the elements with one
    of the tags and a class the word occurs in. *)
Definition find_all_class (soup : node) (tags : list str) (word : str) : list node :=
  filter (fun n => existsb (contains word) (classes_of n)) (find_all soup tags).

End Soup.

Import Soup.

(** ** The field extractors *)

Definition compound_of (tag cls : option string) (attr : option (string * string))
  (first : bool) : compound :=
  {| c_tag := option_map u tag;
     c_class := option_map u cls;
     c_attr := option_map (fun av => (u (fst av), u (snd av))) attr;
     c_first_of_type := first |}.

Definition by_tag (t : string) := compound_of (Some t) None None false.
Definition by_class (c : string) := compound_of None (Some c) None false.
Definition by_tag_class (t c : string) := compound_of (Some t) (Some c) None false.
Definition by_tag_attr (t a v : string) := compound_of (Some t) None (Some (a, v)) false.

(** The selector lists of the extractors.  The attribute values are quoted
    with ['] here where the source quotes them with the double quote. *)
Definition title_selectors : list selector :=
  [ Selector "h1.recipe-title" [by_tag_class "h1" "recipe-title"];
    Selector "h1[itemprop='name']" [by_tag_attr "h1" "itemprop" "name"];
    Selector "h1.entry-title" [by_tag_class "h1" "entry-title"];
    Selector ".recipe-header h1" [by_class "recipe-header"; by_tag "h1"];
    Selector "article h1" [by_tag "article"; by_tag "h1"];
    Selector "h1" [by_tag "h1"] ].

Definition description_selectors : list selector :=
  [ Selector "div.recipe-description" [by_tag_class "div" "recipe-description"];
    Selector "div[itemprop='description']" [by_tag_attr "div" "itemprop" "description"];
    Selector "meta[name='description']" [by_tag_attr "meta" "name" "description"];
    Selector "meta[property='og:description']" [by_tag_attr "meta" "property" "og:description"];
    Selector ".recipe-intro" [by_class "recipe-intro"];
    Selector "article p:first-of-type"
      [by_tag "article"; compound_of (Some "p"%string) None None true] ].

Definition instructions_selectors : list selector :=
  [ Selector "div.recipe-instructions" [by_tag_class "div" "recipe-instructions"];
    Selector "div[itemprop='recipeInstructions']"
      [by_tag_attr "div" "itemprop" "recipeInstructions"];
    Selector "ol.recipe-steps" [by_tag_class "ol" "recipe-steps"];
    Selector "div.instructions" [by_tag_class "div" "instructions"];
    Selector ".recipe-directions" [by_class "recipe-directions"] ].

Definition ingredients_selectors : list selector :=
  [ Selector "ul.recipe-ingredients" [by_tag_class "ul" "recipe-ingredients"];
    Selector "ul[itemprop='recipeIngredient']"
      [by_tag_attr "ul" "itemprop" "recipeIngredient"];
    Selector "div.ingredients ul" [by_tag_class "div" "ingredients"; by_tag "ul"];
    Selector ".ingredient-list" [by_class "ingredient-list"] ].

Definition cooking_time_selectors : list selector :=
  [ Selector "time[itemprop='totalTime']" [by_tag_attr "time" "itemprop" "totalTime"];
    Selector "span.cooking-time" [by_tag_class "span" "cooking-time"];
    Selector ".recipe-time" [by_class "recipe-time"] ].

Definition servings_selectors : list selector :=
  [ Selector "span[itemprop='recipeYield']" [by_tag_attr "span" "itemprop" "recipeYield"];
    Selector ".recipe-servings" [by_class "recipe-servings"];
    Selector ".servings" [by_class "servings"] ].

(** [match.group(n)] handed to a string method: a group that took no part
    in the match is [None], and the method call on it raises. *)
Definition group_str (c : caps) (n : nat) : outcome str :=
  match group c n with
  | Some g => Returns g
  | None => Raises
  end.

(** *** Title *)

Definition title_placeholder : str := u "Рецепт без названия".

(** [\s*[|–-]\s*.+$] *)
Definition title_suffix : regex :=
  cat [Star isspace; Chr (oneof (u "|–-")); Star isspace; plus dot; Eos].

(** The loop over the selectors: the first selector that finds an element
    ends it, with the stripped text of that element. *)
Fixpoint title_loop (selectors : list selector) (soup : node) : option str :=
  match selectors with
  | [] => None
  | selector :: rest =>
      match select_one soup selector with
      | Some element => Some (get_text_strip element)
      | None => title_loop rest soup
      end
  end.

Definition _extract_title (soup : node) : str :=
  match title_loop title_selectors soup with
  | Some title => title
  | None =>
      match find_tag soup (u "title") with
      | Some title_tag => re_sub_empty title_suffix (get_text_strip title_tag)
      | None => title_placeholder
      end
  end.

(** *** Description *)

Definition description_placeholder : str := u "Описание отсутствует".

Fixpoint description_loop (selectors : list selector) (soup : node) : option str :=
  match selectors with
  | [] => None
  | selector :: rest =>
      if String.prefix "meta" (css selector) then
        match select_one soup selector with
        | Some element =>
            match get element (u "content") with
            | Some content =>
                if nonempty content then Some (strip content)
                else description_loop rest soup
            | None => description_loop rest soup
            end
        | None => description_loop rest soup
        end
      else
        match select_one soup selector with
        | Some element => Some (get_text_strip element)
        | None => description_loop rest soup
        end
  end.

Definition _extract_description (soup : node) : str :=
  match description_loop description_selectors soup with
  | Some description => description
  | None =>
      match find_all soup [u "p"] with
      | paragraph :: _ => get_text_strip paragraph
      | [] => description_placeholder
      end
  end.

(** *** Instructions *)

Definition instructions_placeholder : str := u "Инструкции отсутствуют".

(** [(Приготовление|Инструкция|Способ приготовления)[:\s]+(.*?)(?=Ингредиенты|$)]
    with [re.DOTALL | re.IGNORECASE]. *)
Definition instructions_re : regex :=
  cat [ Group 1 (alt (lit_i (u "Приготовление"))
                   [lit_i (u "Инструкция"); lit_i (u "Способ приготовления")]);
        plus (fun x => N.eqb x (ch ":") || isspace x);
        Group 2 (StarLazy dot_all);
        Ahead (Alt (lit_i (u "Ингредиенты")) Eos) ].

(** The numbered steps of a container: [i] counts every list item and
    paragraph, the kept ones are longer than 10 characters. *)
Fixpoint steps_loop (i : nat) (items : list node) : list str :=
  match items with
  | [] => []
  | step :: rest =>
      let text := get_text_strip step in
      if nonempty text && Nat.ltb 10 (length text)
      then (of_nat i ++ u ". " ++ text) :: steps_loop (S i) rest
      else steps_loop (S i) rest
  end.

Definition steps_of (element : node) : list str :=
  steps_loop 1 (find_all element [u "li"; u "p"]).

Fixpoint instructions_loop (selectors : list selector) (soup : node) : option str :=
  match selectors with
  | [] => None
  | selector :: rest =>
      match select_one soup selector with
      | Some element =>
          match steps_of element with
          | [] => instructions_loop rest soup
          | steps => Some (join [10%N] steps)
          end
      | None => instructions_loop rest soup
      end
  end.

Definition _extract_instructions (soup : node) : outcome str :=
  match instructions_loop instructions_selectors soup with
  | Some instructions => Returns instructions
  | None =>
      match re_search instructions_re (get_text soup) with
      | Some (_, c, _) => g <- group_str c 2 ;; Returns (strip g)
      | None => Returns instructions_placeholder
      end
  end.

(** *** Ingredients *)

Definition placeholder_ingredients : list ingredient :=
  [ {| name := u "Ингредиент 1"; quantity := u "100"; unit := u "г" |};
    {| name := u "Ингредиент 2"; quantity := u "200"; unit := u "мл" |} ].

(** The loop over the items found: every item with a text is parsed, and
    what the parser returns is appended to [ingredients] unless it is
    [None]. *)
Fixpoint collect (items : list node) (ingredients : list ingredient)
  : outcome (list ingredient) :=
  match items with
  | [] => Returns ingredients
  | item :: rest =>
      let text := get_text_strip item in
      if nonempty text then
        parsed <- _parse_ingredient_string text ;;
        match parsed with
        | Some i => collect rest (ingredients ++ [i])
        | None => collect rest ingredients
        end
      else collect rest ingredients
  end.

(** The loop over the container selectors.  [inl] is the list returned from
    inside the loop, [inr] the list the loop ends with. *)
Fixpoint ingredients_loop (selectors : list selector) (soup : node)
  (ingredients : list ingredient)
  : outcome (list ingredient + list ingredient) :=
  match selectors with
  | [] => Returns (inr ingredients)
  | selector :: rest =>
      match select_one soup selector with
      | Some element =>
          ingredients' <- collect (find_all element [u "li"]) ingredients ;;
          match ingredients' with
          | [] => ingredients_loop rest soup ingredients'
          | _ :: _ => Returns (inl ingredients')
          end
      | None => ingredients_loop rest soup ingredients
      end
  end.

Definition _extract_ingredients (soup : node) : outcome (list ingredient) :=
  r <- ingredients_loop ingredients_selectors soup [] ;;
  match r with
  | inl ingredients => Returns ingredients
  | inr ingredients =>
      ingredients' <-
        collect (find_all_class soup [u "li"; u "p"] (u "ingredient")) ingredients ;;
      match ingredients' with
      | [] => Returns placeholder_ingredients
      | _ :: _ => Returns ingredients'
      end
  end.

(** *** Cooking time and servings *)

(** [(\d+)] *)
Definition digits_re : regex := Group 1 (plus isdecimal).

(** [(\d+)\s*мин] and [(\d+)\s*порц] *)
Definition minutes_re : regex :=
  cat [Group 1 (plus isdecimal); Star isspace; lit (u "мин")].
Definition portions_re : regex :=
  cat [Group 1 (plus isdecimal); Star isspace; lit (u "порц")].

(** [int(s)] on a run of decimal digits, which is what the service hands
    to it: the number the run writes, or [ValueError] when the run is
    longer than the limit. *)
Definition to_int (s : str) : outcome Z :=
  if Nat.ltb int_max_str_digits (length s) then Raises
  else Returns (decimal_value s).

(** [int(match.group(n))] *)
Definition group_int (c : caps) (n : nat) : outcome Z :=
  g <- group_str c n ;; to_int g.

(** The selector loop the two extractors share: the first element found
    whose text holds a digit ends it, with the first run of digits turned
    into a number, or with the exception of that conversion. *)
Fixpoint number_loop (selectors : list selector) (soup : node) : outcome (option Z) :=
  match selectors with
  | [] => Returns None
  | selector :: rest =>
      match select_one soup selector with
      | Some element =>
          match re_search digits_re (get_text element) with
          | Some (_, c, _) => n <- group_int c 1 ;; Returns (Some n)
          | None => number_loop rest soup
          end
      | None => number_loop rest soup
      end
  end.

Definition number_in_text (pattern : regex) (default : Z) (soup : node) : outcome Z :=
  match re_search pattern (get_text soup) with
  | Some (_, c, _) => group_int c 1
  | None => Returns default
  end.

Definition _extract_cooking_time (soup : node) : outcome Z :=
  found <- number_loop cooking_time_selectors soup ;;
  match found with
  | Some n => Returns n
  | None => number_in_text minutes_re 30%Z soup
  end.

Definition _extract_servings (soup : node) : outcome Z :=
  found <- number_loop servings_selectors soup ;;
  match found with
  | Some n => Returns n
  | None => number_in_text portions_re 4%Z soup
  end.

(** ** Fetching and the top-level parse *)

(** What the request of [fetch_page] meets: [requests.get] raises (no
    connection, or the 10 seconds pass), or a response arrives with a
    status and a body that BeautifulSoup turns into a tree, or fails to. *)
Inductive response : Type :=
| ConnectionError
| Timeout
| Http (status : Z) (content : option node).

(** [response.raise_for_status()] raises for the 4xx and 5xx statuses. *)
Definition raise_for_status (status : Z) : bool :=
  (400 <=? status)%Z && (status <? 600)%Z.

(** The service object: only [self.soup] changes. *)
Record service : Type := Service {
  soup : option node
}.

Definition init : service := {| soup := None |}.

(** [fetch_page]: every exception is caught and turned into [False]. *)
Definition fetch_page (r : response) (self : service) : bool * service :=
  match r with
  | Http status (Some tree) =>
      if raise_for_status status then (false, self)
      else (true, {| soup := Some tree |})
  | Http _ None => (false, self)
  | ConnectionError => (false, self)
  | Timeout => (false, self)
  end.

Record recipe_data : Type := RecipeData {
  title : str;
  description : str;
  instructions : str;
  ingredients : list ingredient;
  cooking_time : Z;
  servings : Z
}.

(** [parse_recipe]: the extractors run on [self.soup] in the order of the
    dictionary literal; a service without a soup has nothing to query. *)
Definition parse_recipe (r : response) (self : service) : outcome (option recipe_data) :=
  let (fetched, self) := fetch_page r self in
  if negb fetched then Returns None
  else
    match soup self with
    | None => Raises
    | Some page =>
        let title' := _extract_title page in
        let description' := _extract_description page in
        instructions' <- _extract_instructions page ;;
        ingredients' <- _extract_ingredients page ;;
        cooking_time' <- _extract_cooking_time page ;;
        servings' <- _extract_servings page ;;
        let recipe_data :=
          {| title := title'; description := description';
             instructions := instructions'; ingredients := ingredients';
             cooking_time := cooking_time'; servings := servings' |} in
        if nonempty (title recipe_data) then Returns (Some recipe_data)
        else Returns None
    end.

(** ** Notions the properties are stated with *)

(** The strings a pattern can match, captures and order of trial set
    aside.  A look-ahead and [$] consume nothing. *)
Fixpoint lang (r : regex) (w : str) : Prop :=
  match r with
  | Eps => w = []
  | Chr p => exists x, w = [x] /\ p x = true
  | Seq a b => exists w1 w2, w = w1 ++ w2 /\ lang a w1 /\ lang b w2
  | Alt a b => lang a w \/ lang b w
  | Opt a => lang a w \/ w = []
  | Star p => forallb p w = true
  | StarLazy p => forallb p w = true
  | Group _ a => lang a w
  | Ahead _ => w = []
  | Eos => w = []
  end.

(** The groups of a pattern, each with the pattern it encloses. *)
Fixpoint groups_of (r : regex) : list (nat * regex) :=
  match r with
  | Seq a b => groups_of a ++ groups_of b
  | Alt a b => groups_of a ++ groups_of b
  | Opt a => groups_of a
  | Group n a => (n, a) :: groups_of a
  | Ahead a => groups_of a
  | _ => []
  end.

(** Group [n] takes part in every match of the pattern. *)
Fixpoint binds (r : regex) (n : nat) : bool :=
  match r with
  | Seq a b => binds a n || binds b n
  | Alt a b => binds a n && binds b n
  | Group m a => Nat.eqb m n || binds a n
  | _ => false
  end.

(** The least number of characters a match of the pattern consumes. *)
Fixpoint min_len (r : regex) : nat :=
  match r with
  | Chr _ => 1
  | Seq a b => min_len a + min_len b
  | Alt a b => Nat.min (min_len a) (min_len b)
  | Group _ a => min_len a
  | _ => 0
  end.

(** A non-empty run of decimal digits. *)
Definition digits (s : str) : Prop := s <> [] /\ forallb isdecimal s = true.

(** A run of digits, or two of them around one decimal point. *)
Definition quantity_shape (q : str) : Prop :=
  digits q \/ exists d1 d2, q = d1 ++ ch "." :: d2 /\ digits d1 /\ digits d2.

(** The canonical vocabulary of units. *)
Definition canonical_units : list str :=
  [u "г"; u "мл"; u "кг"; u "л"; u "шт"; u "ст.л."; u "ч.л."; u "стакан"].

(** [v] spells the dictionary key [key]: the two are equal once case,
    periods and spaces are set aside. *)
Definition spells (v key : str) : Prop :=
  drop_dots_spaces (lower v) = drop_dots_spaces key.

(** What one strategy of an extractor finds in a page, if anything.  For
    the title, and for the description outside the meta tags: the stripped
    text of the element the selector finds, empty or not. *)
Definition title_strategy (selector : selector) (soup : node) : option str :=
  option_map get_text_strip (select_one soup selector).

(** For a meta tag: its [content] attribute, stripped, when it is there and
    not empty. *)
Definition meta_strategy (selector : selector) (soup : node) : option str :=
  match select_one soup selector with
  | Some element =>
      match get element (u "content") with
      | Some content => if nonempty content then Some (strip content) else None
      | None => None
      end
  | None => None
  end.

Definition description_strategy (selector : selector) (soup : node) : option str :=
  if String.prefix "meta" (css selector) then meta_strategy selector soup
  else title_strategy selector soup.

(** For the instructions: the numbered steps of the container the selector
    finds, when there is a step. *)
Definition instructions_strategy (selector : selector) (soup : node) : option str :=
  match select_one soup selector with
  | Some element =>
      match steps_of element with
      | [] => None
      | steps => Some (join [10%N] steps)
      end
  | None => None
  end.

(** For cooking time and servings: the first run of digits in the text of
    the element the selector finds, when there is one; what is found is the
    outcome of turning the run into a number. *)
Definition number_strategy (selector : selector) (soup : node)
  : option (outcome Z) :=
  match select_one soup selector with
  | Some element =>
      match re_search digits_re (get_text element) with
      | Some (_, c, _) => Some (group_int c 1)
      | None => None
      end
  | None => None
  end.

(** [selector] is the first of [selectors] whose strategy finds something
    in the page, and it finds [v]. *)
Definition first_hit {A : Type} (strategy : selector -> node -> option A)
  (selectors : list selector) (soup : node) (v : A) : Prop :=
  exists before selector after,
    selectors = before ++ selector :: after
    /\ (forall s, In s before -> strategy s soup = None)
    /\ strategy selector soup = Some v.

(** The title strategies are exhausted: no selector finds an element and
    the page has no title tag. *)
Definition title_exhausted (soup : node) : Prop :=
  (forall s, In s title_selectors -> select_one soup s = None)
  /\ find_tag soup (u "title") = None.

(** What a container selector yields: the ingredients parsed from the list
    items of the element it finds. *)
Definition container_yield (soup : node) (selector : selector) : outcome (list ingredient) :=
  match select_one soup selector with
  | Some element => collect (find_all element [u "li"]) []
  | None => Returns []
  end.

(** The yield of the class-pattern fallback. *)
Definition class_pattern_yield (soup : node) : outcome (list ingredient) :=
  collect (find_all_class soup [u "li"; u "p"] (u "ingredient")) [].

(** Neither the containers nor the class pattern yield a parsed item. *)
Definition nothing_parsed (soup : node) : Prop :=
  (forall s, In s ingredients_selectors -> container_yield soup s = Returns [])
  /\ class_pattern_yield soup = Returns [].

(** The fetch fails: no connection, a timeout, a status that
    [raise_for_status] raises for, or a body that cannot be parsed. *)
Definition fetch_fails (r : response) : Prop :=
  match r with
  | ConnectionError => True
  | Timeout => True
  | Http status content => raise_for_status status = true \/ content = None
  end.

(** A status of success in the words of the specification: 2xx. *)
Definition success_status (status : Z) : Prop := (200 <= status < 300)%Z.

(** The fetch failure of the specification: a network error, a timeout, a
    status that is not one of success, or content that cannot be parsed. *)
Definition fetch_fails_as_specified (r : response) : Prop :=
  match r with
  | ConnectionError => True
  | Timeout => True
  | Http status content => ~ success_status status \/ content = None
  end.

(** Pages used below, each the tree BeautifulSoup builds from the HTML
    quoted with it. *)
Definition el (tag : string) (classes : list string) (attrs : list (string * string))
  (kids : list node) : node :=
  Elem (u tag) (map u classes) (map (fun av => (u (fst av), u (snd av))) attrs) kids.

Definition document (kids : list node) : node := Elem (u "[document]") [] [] kids.

(** The text of an element outside [script], [style] and the like. *)
Definition txt (s : string) : node := Text NavigableString (u s).

(** [<html><body><p>Просто текст</p></body></html>] *)
Definition page_plain : node :=
  document [el "html" [] [] [el "body" [] [] [el "p" [] [] [txt "Просто текст"]]]].

(** [<html><body><h1 class="recipe-title"></h1>
    <div class="recipe-header"><h1>Борщ</h1></div></body></html>] *)
Definition page_empty_heading : node :=
  document [el "html" [] [] [el "body" [] []
    [ el "h1" ["recipe-title"%string] [] [];
      el "div" ["recipe-header"%string] [] [el "h1" [] [] [txt "Борщ"]] ]]].

(** [<html><head><meta name="description" content=" Суп со свеклой ">
    </head><body><h1 class="entry-title">Борщ</h1>
    <div class="recipe-instructions"></div>
    <ol class="recipe-steps"><li>Нарезать свеклу соломкой</li></ol>
    <span class="cooking-time">быстро</span>
    <div class="recipe-time">45 минут</div>
    <div class="servings">на 6 человек</div>
    <ul class="ingredient-list"><li>и</li></ul></body></html>] *)
Definition page_rich : node :=
  document [el "html" [] []
    [ el "head" [] []
        [el "meta" [] [("name", "description"); ("content", " Суп со свеклой ")]%string []];
      el "body" [] []
        [ el "h1" ["entry-title"%string] [] [txt "Борщ"];
          el "div" ["recipe-instructions"%string] [] [];
          el "ol" ["recipe-steps"%string] []
            [el "li" [] [] [txt "Нарезать свеклу соломкой"]];
          el "span" ["cooking-time"%string] [] [txt "быстро"];
          el "div" ["recipe-time"%string] [] [txt "45 минут"];
          el "div" ["servings"%string] [] [txt "на 6 человек"];
          el "ul" ["ingredient-list"%string] [] [el "li" [] [] [txt "и"]] ] ]].

(** [<html><body><span class="cooking-time">៤៥</span>
    <div class="recipe-time">30 мин</div>
    <script class="servings">var n = 8;</script></body></html>]: Khmer
    digits in the first element, and a number of servings that only the
    text of a script holds. *)
Definition page_digits : node :=
  document [el "html" [] [] [el "body" [] []
    [ el "span" ["cooking-time"%string] [] [txt "៤៥"];
      el "div" ["recipe-time"%string] [] [txt "30 мин"];
      el "script" ["servings"%string] [] [Text Script (u "var n = 8;")] ]]].

(** [<html><body><span class="cooking-time">11...1</span></body></html>]
    with 4301 digits. *)
Definition page_long_run : node :=
  document [el "html" [] [] [el "body" [] []
    [ el "span" ["cooking-time"%string] []
        [Text NavigableString (repeat (ch "1") 4301)] ]]].

(** A quantity as the service hands it out: not empty, without a comma,
    digits or digits around one decimal point. *)
Definition well_formed_quantity (q : str) : Prop :=
  q <> [] /\ ~ In (ch ",") q /\ quantity_shape q.

(** The steps of a container read off the texts of its items: the items are
    counted from [i], the ones longer than 10 characters are kept, each
    behind its own count. *)
Definition numbered_steps (i : nat) (texts : list str) : list str :=
  map (fun kt => of_nat (fst kt) ++ u ". " ++ snd kt)
      (filter (fun kt => Nat.ltb 10 (length (snd kt)))
              (combine (seq i (length texts)) texts)).

(** The characters the title pattern takes for the start of a site suffix:
    the class [[|–-]]. *)
Definition title_separator : cp -> bool := oneof (u "|–-").

(** Induction over a page: a property of the children carries to the
    element. *)
Fixpoint node_induction (P : node -> Prop)
  (text_case : forall kind s, P (Text kind s))
  (elem_case : forall tag classes attrs kids,
      Forall P kids -> P (Elem tag classes attrs kids))
  (n : node) : P n :=
  match n with
  | Text kind s => text_case kind s
  | Elem tag classes attrs kids =>
      elem_case tag classes attrs kids
        ((fix all (ks : list node) : Forall P ks :=
            match ks with
            | [] => Forall_nil P
            | k :: ks' =>
                Forall_cons k (node_induction text_case elem_case k) (all ks')
            end) kids)
  end.

(** [<html><head><title>Борщ по-украински | CookSite</title></head>
    <body><p>Просто текст</p></body></html>] *)
Definition page_titled : node :=
  document [el "html" [] []
    [ el "head" [] [] [el "title" [] [] [txt "Борщ по-украински | CookSite"]];
      el "body" [] [] [el "p" [] [] [txt "Просто текст"]] ]].

(** [<html><head><title>Борщ</title></head>
    <body><ul class="recipe-ingredients"><li>и</li></ul>
    <div class="ingredients"><ul><li>500 г свеклы</li><li>Соль – 1 ч.л.</li></ul></div>
    <p class="ingredient">2 стакана воды</p></body></html>] *)
Definition page_lists : node :=
  document [el "html" [] []
    [ el "head" [] [] [el "title" [] [] [txt "Борщ"]];
      el "body" [] []
        [ el "ul" ["recipe-ingredients"%string] [] [el "li" [] [] [txt "и"]];
          el "div" ["ingredients"%string] []
            [el "ul" [] [] [ el "li" [] [] [txt "500 г свеклы"];
                             el "li" [] [] [txt "Соль – 1 ч.л."] ]];
          el "p" ["ingredient"%string] [] [txt "2 стакана воды"] ] ]].

(** Every word of the pattern starts with a character that satisfies [Q]. *)
Fixpoint starts_in (Q : cp -> Prop) (r : regex) : Prop :=
  match r with
  | Chr p => forall x, p x = true -> Q x
  | Seq a _ => starts_in Q a
  | Alt a b => starts_in Q a /\ starts_in Q b
  | Group _ a => starts_in Q a
  | _ => False
  end.

(** An ingredient as the service hands it out: a well-formed quantity and a
    unit that is not empty. *)
Definition sound_ingredient (i : ingredient) : Prop :=
  well_formed_quantity (quantity i) /\ unit i <> [].

(** Splits a selector list at position [k] and checks the two conditions of
    [first_hit] on a concrete page by evaluation. *)
Ltac hit_at k sels :=
  exists (firstn k sels), (nth k sels (Selector "" [])), (skipn (S k) sels);
  split; [vm_compute; reflexivity|];
  split; [|vm_compute; reflexivity];
  let s := fresh "s" in
  let I := fresh "I" in
  intros s I; vm_compute in I;
  repeat (destruct I as [<-|I]; [vm_compute; reflexivity|]);
  contradiction.

(** *** The matcher: what a match consumed and captured *)

Section Matcher.

Lemma star_greedy_sound (p : cp -> bool) (s s' : str) :
  In s' (star_greedy p s) -> exists w, s = w ++ s' /\ forallb p w = true.
Proof.
  induction s as [|x t IH]; simpl.
  - intros [<-|[]]. now exists [].
  - destruct (p x) eqn:Hp.
    + intros H. apply in_app_or in H. destruct H as [H|[<-|[]]].
      * destruct (IH H) as (w & -> & Hw). exists (x :: w). simpl. now rewrite Hp, Hw.
      * now exists [].
    + intros [<-|[]]. now exists [].
Qed.

Lemma star_lazy_sound (p : cp -> bool) (s s' : str) :
  In s' (star_lazy p s) -> exists w, s = w ++ s' /\ forallb p w = true.
Proof.
  induction s as [|x t IH]; simpl.
  - intros [<-|[]]. now exists [].
  - intros [<-|H]; [now exists []|].
    destruct (p x) eqn:Hp; [|contradiction].
    destruct (IH H) as (w & -> & Hw). exists (x :: w). simpl. now rewrite Hp, Hw.
Qed.

(** Every result of [run] splits the input into a word of the pattern's
    language and the remainder. *)
Lemma run_sound (r : regex) : forall c s c' s',
  In (c', s') (run r c s) -> exists w, s = w ++ s' /\ lang r w.
Proof.
  induction r as [|p|a IHa b IHb|a IHa b IHb|a IHa|p|p|n a IHa|a IHa|];
    intros c s c' s'; simpl.
  - intros [H|[]]. inversion H; subst. now exists [].
  - destruct s as [|x t]; [contradiction|].
    destruct (p x) eqn:Hp; [|contradiction].
    intros [H|[]]. inversion H; subst. exists [x]. split; [reflexivity|]. now exists x.
  - intros H. apply in_flat_map in H. destruct H as ([c1 s1] & H1 & H2). simpl in H2.
    destruct (IHa _ _ _ _ H1) as (w1 & -> & L1).
    destruct (IHb _ _ _ _ H2) as (w2 & -> & L2).
    exists (w1 ++ w2). split; [now rewrite app_assoc|]. now exists w1, w2.
  - intros H. apply in_app_or in H. destruct H as [H|H].
    + destruct (IHa _ _ _ _ H) as (w & -> & L). exists w. auto.
    + destruct (IHb _ _ _ _ H) as (w & -> & L). exists w. auto.
  - intros H. apply in_app_or in H. destruct H as [H|[H|[]]].
    + destruct (IHa _ _ _ _ H) as (w & -> & L). exists w. auto.
    + inversion H; subst. exists []. auto.
  - intros H. apply in_map_iff in H. destruct H as (x & E & H). inversion E; subst.
    now apply star_greedy_sound.
  - intros H. apply in_map_iff in H. destruct H as (x & E & H). inversion E; subst.
    now apply star_lazy_sound.
  - intros H. apply in_map_iff in H. destruct H as ([c1 s1] & E & H). inversion E; subst.
    simpl. eauto.
  - destruct (run a c s); [contradiction|]. intros [H|[]]. inversion H; subst. now exists [].
  - destruct s as [|x [|y t]]; try contradiction.
    + intros [H|[]]. inversion H; subst. now exists [].
    + destruct (N.eqb x 10); [|contradiction].
      intros [H|[]]. inversion H; subst. now exists [].
Qed.

Lemma firstn_consumed (w s' : str) :
  firstn (length (w ++ s') - length s') (w ++ s') = w.
Proof.
  rewrite length_app. replace (length w + length s' - length s') with (length w) by lia.
  rewrite firstn_app, Nat.sub_diag, firstn_all. simpl. now rewrite app_nil_r.
Qed.

(** A group found after a run was there before it, or holds a word of the
    language of one of the pattern's groups of that number. *)
Lemma run_caps (r : regex) : forall c s c' s' n w,
  In (c', s') (run r c s) -> group c' n = Some w ->
  group c n = Some w \/ exists a, In (n, a) (groups_of r) /\ lang a w.
Proof.
  induction r as [|p|a IHa b IHb|a IHa b IHb|a IHa|p|p|m a IHa|a IHa|];
    intros c s c' s' n w; simpl.
  - intros [H|[]] G. inversion H; subst. auto.
  - destruct s as [|x t]; [contradiction|]. destruct (p x); [|contradiction].
    intros [H|[]] G. inversion H; subst. auto.
  - intros H G. apply in_flat_map in H. destruct H as ([c1 s1] & H1 & H2). simpl in H2.
    destruct (IHb _ _ _ _ _ _ H2 G) as [G1|(r0 & I & L)].
    + destruct (IHa _ _ _ _ _ _ H1 G1) as [G0|(r0 & I & L)]; [auto|].
      right. exists r0. split; [apply in_or_app|]; auto.
    + right. exists r0. split; [apply in_or_app|]; auto.
  - intros H G. apply in_app_or in H. destruct H as [H|H].
    + destruct (IHa _ _ _ _ _ _ H G) as [G0|(r0 & I & L)]; [auto|].
      right. exists r0. split; [apply in_or_app|]; auto.
    + destruct (IHb _ _ _ _ _ _ H G) as [G0|(r0 & I & L)]; [auto|].
      right. exists r0. split; [apply in_or_app|]; auto.
  - intros H G. apply in_app_or in H. destruct H as [H|[H|[]]].
    + eauto.
    + inversion H; subst. auto.
  - intros H G. apply in_map_iff in H. destruct H as (x & E & H). inversion E; subst. auto.
  - intros H G. apply in_map_iff in H. destruct H as (x & E & H). inversion E; subst. auto.
  - intros H G. apply in_map_iff in H. destruct H as ([c1 s1] & E & H).
    inversion E; subst. clear E. simpl in G.
    destruct (run_sound _ _ _ _ _ H) as (w0 & -> & L). simpl in G.
    rewrite firstn_consumed in G.
    destruct (Nat.eqb m n) eqn:Emn.
    + apply Nat.eqb_eq in Emn. subst. inversion G; subst. right. exists a. simpl. auto.
    + destruct (IHa _ _ _ _ _ _ H G) as [G0|(r0 & I & L0)]; [auto|].
      right. exists r0. simpl. auto.
  - destruct (run a c s); [contradiction|]. intros [H|[]] G. inversion H; subst. auto.
  - destruct s as [|x [|y t]]; try contradiction.
    + intros [H|[]] G. inversion H; subst. auto.
    + destruct (N.eqb x 10); [|contradiction].
      intros [H|[]] G. inversion H; subst. auto.
Qed.

(** A run forgets no group. *)
Lemma run_keeps (r : regex) : forall c s c' s' n,
  In (c', s') (run r c s) -> group c n <> None -> group c' n <> None.
Proof.
  induction r as [|p|a IHa b IHb|a IHa b IHb|a IHa|p|p|m a IHa|a IHa|];
    intros c s c' s' n; simpl.
  - intros [H|[]] G. now inversion H; subst.
  - destruct s as [|x t]; [contradiction|]. destruct (p x); [|contradiction].
    intros [H|[]] G. now inversion H; subst.
  - intros H G. apply in_flat_map in H. destruct H as ([c1 s1] & H1 & H2). eauto.
  - intros H G. apply in_app_or in H. destruct H as [H|H]; eauto.
  - intros H G. apply in_app_or in H. destruct H as [H|[H|[]]]; [eauto|].
    now inversion H; subst.
  - intros H G. apply in_map_iff in H. destruct H as (x & E & H). now inversion E; subst.
  - intros H G. apply in_map_iff in H. destruct H as (x & E & H). now inversion E; subst.
  - intros H G. apply in_map_iff in H. destruct H as ([c1 s1] & E & H).
    inversion E; subst. simpl. destruct (Nat.eqb m n); [discriminate|]. eauto.
  - destruct (run a c s); [contradiction|]. intros [H|[]] G. now inversion H; subst.
  - destruct s as [|x [|y t]]; try contradiction.
    + intros [H|[]] G. now inversion H; subst.
    + destruct (N.eqb x 10); [|contradiction]. intros [H|[]] G. now inversion H; subst.
Qed.

(** A group that takes part in every match is set after a run. *)
Lemma run_binds (r : regex) : forall c s c' s' n,
  binds r n = true -> In (c', s') (run r c s) -> group c' n <> None.
Proof.
  induction r as [|p|a IHa b IHb|a IHa b IHb|a IHa|p|p|m a IHa|a IHa|];
    intros c s c' s' n; simpl; try discriminate.
  - intros B H. apply in_flat_map in H. destruct H as ([c1 s1] & H1 & H2). simpl in H2.
    apply orb_true_iff in B. destruct B as [B|B].
    + eapply run_keeps; eauto.
    + eauto.
  - intros B H. apply andb_true_iff in B. destruct B as [Ba Bb].
    apply in_app_or in H. destruct H as [H|H]; eauto.
  - intros B H. apply in_map_iff in H. destruct H as ([c1 s1] & E & H).
    inversion E; subst. simpl. destruct (Nat.eqb m n) eqn:Emn; [discriminate|].
    simpl in B. eauto.
Qed.

Lemma re_match_in (r : regex) (s : str) (c : caps) (rest : str) :
  re_match r s = Some (c, rest) -> In (c, rest) (run r [] s).
Proof.
  unfold re_match. destruct (run r [] s); simpl; [discriminate|].
  intros H. inversion H. now left.
Qed.

Lemma search_from_in (r : regex) : forall s skipped before c rest,
  search_from r skipped s = Some (before, c, rest) ->
  exists s0, In (c, rest) (run r [] s0).
Proof.
  induction s as [|x t IH]; intros skipped before c rest; simpl.
  - destruct (re_match r []) as [[c0 r0]|] eqn:E; [|discriminate].
    intros H. inversion H; subst. exists []. now apply re_match_in.
  - destruct (re_match r (x :: t)) as [[c0 r0]|] eqn:E.
    + intros H. inversion H; subst. exists (x :: t). now apply re_match_in.
    + apply IH.
Qed.

End Matcher.

(** *** The unit normalizer *)

Section Normalizer.

Lemma eqb_eq (a b : str) : Str.eqb a b = true <-> a = b.
Proof.
  unfold Str.eqb. destruct (list_eq_dec N.eq_dec a b); split; congruence.
Qed.

(** The loop returns the value of a matching key or the input itself. *)
Lemma normalize_loop_cases (items : list (str * str)) (unit_lower unit : str) :
  (normalize_loop items unit_lower unit = unit
   /\ forall key value, In (key, value) items -> drop_dots_spaces key <> unit_lower)
  \/ exists key value, In (key, value) items
       /\ drop_dots_spaces key = unit_lower
       /\ normalize_loop items unit_lower unit = value.
Proof.
  induction items as [|[k v] rest IH]; simpl.
  - left. split; [reflexivity|]. intros ? ? [].
  - destruct (Str.eqb (drop_dots_spaces k) unit_lower) eqn:E.
    + right. exists k, v. apply eqb_eq in E. auto.
    + destruct IH as [[H1 H2]|(k' & v' & I & E' & H)].
      * left. split; [assumption|]. intros key value [Hk|Hk].
        -- inversion Hk; subst. intros Heq. apply eqb_eq in Heq. congruence.
        -- eauto.
      * right. exists k', v'. auto.
Qed.

Lemma normalize_loop_miss (items : list (str * str)) (unit_lower unit : str) :
  (forall key value, In (key, value) items -> drop_dots_spaces key <> unit_lower) ->
  normalize_loop items unit_lower unit = unit.
Proof.
  intros H. destruct (normalize_loop_cases items unit_lower unit)
    as [[E _]|(k & v & I & E & _)]; [assumption|].
  exfalso. exact (H _ _ I E).
Qed.

End Normalizer.

(** C3: every canonical unit normalizes to itself, and every spelling of a
    dictionary key, whatever its letter case and its periods and spaces,
    normalizes to the canonical unit of that key; so do "Ст.Л.", "ст л"
    and "ст.л". *)
Theorem C3_normalize_canonical_and_variants :
  (forall unit, In unit canonical_units -> _normalize_unit unit = unit)
  /\ (forall v key canonical,
        In (key, canonical) unit_map -> spells v key ->
        _normalize_unit v = canonical)
  /\ _normalize_unit (u "Ст.Л.") = u "ст.л."
  /\ _normalize_unit (u "ст л") = u "ст.л."
  /\ _normalize_unit (u "ст.л") = u "ст.л.".
Proof.
  split; [|split].
  - intros unit H. unfold canonical_units in H. simpl in H.
    repeat (destruct H as [<-|H]; [vm_compute; reflexivity|]). contradiction.
  - intros v key canonical H S. unfold _normalize_unit. unfold spells in S. rewrite S.
    unfold unit_map in H. simpl in H.
    repeat (destruct H as [H|H]; [inversion H; subst; vm_compute; reflexivity|]).
    contradiction.
  - repeat split; vm_compute; reflexivity.
Qed.

Lemma C3_witness :
  In (u "стакан") canonical_units
  /\ In (u "ст л", u "ст.л.") unit_map
  /\ spells (u "СТ. Л.") (u "ст л")
  /\ _normalize_unit (u "стакан") = u "стакан"
  /\ _normalize_unit (u "СТ. Л.") = u "ст.л.".
Proof.
  assert (I1 : In (u "стакан") canonical_units) by (vm_compute; tauto).
  assert (I2 : In (u "ст л", u "ст.л.") unit_map) by (vm_compute; tauto).
  assert (S : spells (u "СТ. Л.") (u "ст л")) by (vm_compute; reflexivity).
  refine (conj I1 (conj I2 (conj S (conj _ _)))).
  - exact (proj1 C3_normalize_canonical_and_variants _ I1).
  - exact (proj1 (proj2 C3_normalize_canonical_and_variants) _ _ _ I2 S).
Defined.

(** C9: when no dictionary key equals the input once case, periods and
    spaces are set aside, the normalizer returns its input unchanged; on
    every input it returns, either the input itself or the value of a key
    the input spells. *)
Theorem C9_normalize_passthrough :
  (forall unit,
      (forall key value, In (key, value) unit_map -> ~ spells unit key) ->
      _normalize_unit unit = unit)
  /\ (forall unit,
        _normalize_unit unit = unit
        \/ exists key value, In (key, value) unit_map /\ spells unit key
                             /\ _normalize_unit unit = value).
Proof.
  split.
  - intros unit H. unfold _normalize_unit. apply normalize_loop_miss.
    intros key value I E. apply (H key value I). unfold spells. now rewrite E.
  - intros unit. unfold _normalize_unit.
    destruct (normalize_loop_cases unit_map (drop_dots_spaces (lower unit)) unit)
      as [[E _]|(k & v & I & E & H)]; [now left|].
    right. exists k, v. unfold spells. auto.
Qed.

Lemma no_key_spelled (unit : str) :
  forallb (fun kv => negb (Str.eqb (drop_dots_spaces (lower unit)) (drop_dots_spaces (fst kv))))
          unit_map = true ->
  forall key value, In (key, value) unit_map -> ~ spells unit key.
Proof.
  intros H key value I S. rewrite forallb_forall in H. specialize (H _ I). simpl in H.
  unfold spells in S. rewrite S in H.
  assert (E : Str.eqb (drop_dots_spaces key) (drop_dots_spaces key) = true)
    by now apply eqb_eq.
  rewrite E in H. discriminate.
Qed.

Lemma C9_witness :
  (forall key value, In (key, value) unit_map -> ~ spells (u "стакана") key)
  /\ _normalize_unit (u "стакана") = u "стакана".
Proof.
  assert (H : forall key value, In (key, value) unit_map -> ~ spells (u "стакана") key)
    by (apply no_key_spelled; vm_compute; reflexivity).
  split; [exact H|].
  exact (proj1 C9_normalize_passthrough _ H).
Defined.

(** *** The per-item parser *)

Section Parser.

Lemma lang_min_len (r : regex) : forall w, lang r w -> min_len r <= length w.
Proof.
  induction r as [|p|a IHa b IHb|a IHa b IHb|a IHa|p|p|n a IHa|a IHa|];
    intros w; simpl; try lia.
  - intros (x & -> & _). simpl. lia.
  - intros (w1 & w2 & -> & L1 & L2). rewrite length_app.
    specialize (IHa _ L1). specialize (IHb _ L2). lia.
  - intros [L|L]; [specialize (IHa _ L)|specialize (IHb _ L)]; lia.
  - apply IHa.
Qed.

Lemma re_match_min_len (r : regex) (s : str) (c : caps) (rest : str) :
  re_match r s = Some (c, rest) -> min_len r <= length s.
Proof.
  intros H. apply re_match_in in H. apply run_sound in H.
  destruct H as (w & -> & L). apply lang_min_len in L. rewrite length_app. lia.
Qed.

Lemma groups_defined (r : regex) (s : str) (c : caps) (rest : str) :
  binds r 1 = true -> binds r 2 = true -> binds r 3 = true ->
  re_match r s = Some (c, rest) ->
  exists g1 g2 g3, groups c = Some (g1, g2, g3).
Proof.
  intros B1 B2 B3 H. apply re_match_in in H. unfold groups.
  pose proof (@run_binds r _ _ _ _ 1 B1 H) as G1.
  pose proof (@run_binds r _ _ _ _ 2 B2 H) as G2.
  pose proof (@run_binds r _ _ _ _ 3 B3 H) as G3.
  destruct (group c 1) as [g1|]; [|congruence].
  destruct (group c 2) as [g2|]; [|congruence].
  destruct (group c 3) as [g3|]; [|congruence].
  now exists g1, g2, g3.
Qed.

Lemma groups_of_quantity_first :
  groups_of quantity_first = [(1, number); (2, unit_token); (3, plus dot)].
Proof. reflexivity. Qed.

Lemma groups_of_name_first :
  groups_of name_first = [(1, plus_lazy dot); (2, number); (3, unit_token)].
Proof. reflexivity. Qed.

(** The three readings of a line. *)
Lemma parse_quantity_first (text : str) (c : caps) (rest : str) :
  re_match quantity_first text = Some (c, rest) ->
  exists q un n, groups c = Some (q, un, n)
    /\ _parse_ingredient_string text = Returns (Some (of_match q un n)).
Proof.
  intros H.
  destruct (@groups_defined quantity_first text c rest eq_refl eq_refl eq_refl H)
    as (g1 & g2 & g3 & G).
  exists g1, g2, g3. split; [assumption|].
  unfold _parse_ingredient_string, patterns. cbn [parse_loop]. rewrite H, G. reflexivity.
Qed.

Lemma parse_name_first (text : str) (c : caps) (rest : str) :
  re_match quantity_first text = None ->
  re_match name_first text = Some (c, rest) ->
  exists n q un, groups c = Some (n, q, un)
    /\ _parse_ingredient_string text = Returns (Some (of_match q un n)).
Proof.
  intros H0 H.
  destruct (@groups_defined name_first text c rest eq_refl eq_refl eq_refl H)
    as (g1 & g2 & g3 & G).
  exists g1, g2, g3. split; [assumption|].
  unfold _parse_ingredient_string, patterns. cbn [parse_loop]. rewrite H0, H, G. reflexivity.
Qed.

Lemma parse_no_match (text : str) :
  re_match quantity_first text = None ->
  re_match name_first text = None ->
  _parse_ingredient_string text =
    if Nat.ltb 2 (length text)
    then Returns (Some {| name := text; quantity := u "1"; unit := u "шт" |})
    else Returns None.
Proof.
  intros H0 H1. unfold _parse_ingredient_string, patterns. cbn [parse_loop].
  now rewrite H0, H1.
Qed.

(** The parser never raises: the three groups take part in every match. *)
Lemma parse_returns (text : str) :
  exists r, _parse_ingredient_string text = Returns r.
Proof.
  destruct (re_match quantity_first text) as [[c rest]|] eqn:H0.
  - destruct (parse_quantity_first _ H0) as (q & un & n & _ & E). eauto.
  - destruct (re_match name_first text) as [[c rest]|] eqn:H1.
    + destruct (parse_name_first _ H0 H1) as (n & q & un & _ & E). eauto.
    + rewrite (parse_no_match _ H0 H1). destruct (Nat.ltb 2 (length text)); eauto.
Qed.

(** A line of one or two characters matches neither pattern. *)
Lemma short_line_no_match (text : str) :
  length text <= 2 ->
  re_match quantity_first text = None /\ re_match name_first text = None.
Proof.
  intros L. split.
  - destruct (re_match quantity_first text) as [[c rest]|] eqn:H; [|reflexivity].
    apply re_match_min_len in H.
    replace (min_len quantity_first) with 3 in H by reflexivity. lia.
  - destruct (re_match name_first text) as [[c rest]|] eqn:H; [|reflexivity].
    apply re_match_min_len in H.
    replace (min_len name_first) with 4 in H by reflexivity. lia.
Qed.

End Parser.

Section Quantity.

Lemma decimal_not_comma (x : cp) : isdecimal x = true -> N.eqb x (ch ",") = false.
Proof.
  intros H. destruct (N.eqb_spec x (ch ",")) as [->|]; [|reflexivity].
  vm_compute in H. discriminate.
Qed.

Lemma replace_app (old : cp) (new a b : str) :
  replace old new (a ++ b) = replace old new a ++ replace old new b.
Proof. unfold replace. apply flat_map_app. Qed.

Lemma replace_digits (new d : str) :
  forallb isdecimal d = true -> replace (ch ",") new d = d.
Proof.
  induction d as [|x d IH]; [reflexivity|].
  intros H. cbn [forallb] in H. apply andb_true_iff in H. destruct H as [Hx Hd].
  unfold replace in *. cbn [flat_map].
  rewrite (decimal_not_comma _ Hx), (IH Hd). reflexivity.
Qed.

Lemma digits_no_comma (d : str) : forallb isdecimal d = true -> ~ In (ch ",") d.
Proof.
  intros H I. rewrite forallb_forall in H. specialize (H _ I).
  vm_compute in H. discriminate.
Qed.

Lemma plus_digits (w : str) : lang (plus isdecimal) w -> digits w.
Proof.
  simpl. intros (a & b & -> & (x & -> & Hx) & Hb). split; [discriminate|].
  simpl. now rewrite Hx, Hb.
Qed.

(** What [number] matches: digits, or digits, a period or a comma, and
    digits. *)
Lemma number_lang (w : str) :
  lang number w ->
  exists d1, digits d1 /\
    (w = d1 \/ exists x d2, (x = ch "." \/ x = ch ",") /\ digits d2 /\ w = d1 ++ x :: d2).
Proof.
  unfold number. intros (w1 & w2 & -> & L1 & L2).
  apply plus_digits in L1. exists w1. split; [assumption|].
  destruct L2 as [(a & b & -> & (x & -> & Hx) & Lb)| ->].
  - right. exists x, b. apply plus_digits in Lb. repeat split; try apply Lb.
    replace (u ".,") with [ch "."; ch ","] in Hx by (vm_compute; reflexivity).
    unfold oneof in Hx. simpl in Hx.
    rewrite orb_false_r in Hx. apply orb_true_iff in Hx.
    destruct Hx as [Hx|Hx]; apply N.eqb_eq in Hx; auto.
  - left. now rewrite app_nil_r.
Qed.

(** The quantity built from a string [number] matched. *)
Lemma quantity_of_number (w : str) :
  lang number w ->
  let q := replace (ch ",") (u ".") w in
  q <> [] /\ ~ In (ch ",") q /\ quantity_shape q.
Proof.
  intros L. destruct (number_lang L) as (d1 & [N1 D1] & [->|(x & d2 & Hx & [N2 D2] & ->)]);
    cbv zeta.
  - rewrite (replace_digits _ _ D1). repeat split.
    + assumption.
    + now apply digits_no_comma.
    + left. now split.
  - rewrite replace_app, (replace_digits _ _ D1).
    assert (E : replace (ch ",") (u ".") (x :: d2) = ch "." :: d2).
    { change (replace (ch ",") (u ".") (x :: d2))
        with ((if N.eqb x (ch ",") then u "." else [x]) ++ replace (ch ",") (u ".") d2).
      rewrite (replace_digits _ _ D2). destruct Hx as [->| ->]; reflexivity. }
    rewrite E. repeat split.
    + destruct d1; [contradiction|discriminate].
    + intros I. apply in_app_or in I. destruct I as [I|[I|I]].
      * now apply (digits_no_comma _ D1).
      * discriminate.
      * now apply (digits_no_comma _ D2).
    + right. exists d1, d2. repeat split; assumption.
Qed.

Lemma quantity_first_number (text : str) (c : caps) (rest q un n : str) :
  re_match quantity_first text = Some (c, rest) ->
  groups c = Some (q, un, n) -> lang number q.
Proof.
  intros H G. apply re_match_in in H.
  assert (G1 : group c 1 = Some q).
  { unfold groups in G. destruct (group c 1), (group c 2), (group c 3); congruence. }
  destruct (run_caps _ _ _ _ _ _ H G1) as [G0|(a & I & L)]; [discriminate|].
  rewrite groups_of_quantity_first in I.
  destruct I as [I|[I|[I|[]]]]; inversion I; subst. assumption.
Qed.

Lemma name_first_number (text : str) (c : caps) (rest n q un : str) :
  re_match name_first text = Some (c, rest) ->
  groups c = Some (n, q, un) -> lang number q.
Proof.
  intros H G. apply re_match_in in H.
  assert (G2 : group c 2 = Some q).
  { unfold groups in G. destruct (group c 1), (group c 2), (group c 3); congruence. }
  destruct (run_caps _ _ _ _ _ _ H G2) as [G0|(a & I & L)]; [discriminate|].
  rewrite groups_of_name_first in I.
  destruct I as [I|[I|[I|[]]]]; inversion I; subst. assumption.
Qed.

End Quantity.


(** C6: on a line a pattern matches, the result holds the trimmed name
    group, the quantity group with its commas turned into periods (no comma
    is left) and the normalized trimmed unit group; the quantity is a
    string.  "500,5 г муки" gives quantity "500.5", unit "г", name
    "муки". *)
Theorem C6_decimal_normalization :
  (forall text c rest,
      re_match quantity_first text = Some (c, rest) ->
      exists q un n, groups c = Some (q, un, n)
        /\ _parse_ingredient_string text =
             Returns (Some {| name := strip n;
                              quantity := replace (ch ",") (u ".") q;
                              unit := _normalize_unit (strip un) |}))
  /\ (forall text c rest,
        re_match quantity_first text = None ->
        re_match name_first text = Some (c, rest) ->
        exists n q un, groups c = Some (n, q, un)
          /\ _parse_ingredient_string text =
               Returns (Some {| name := strip n;
                                quantity := replace (ch ",") (u ".") q;
                                unit := _normalize_unit (strip un) |}))
  /\ (forall q, ~ In (ch ",") (replace (ch ",") (u ".") q))
  /\ _parse_ingredient_string (u "500,5 г муки") =
       Returns (Some {| name := u "муки"; quantity := u "500.5"; unit := u "г" |}).
Proof.
  split; [|split; [|split]].
  - intros text c rest H. exact (parse_quantity_first _ H).
  - intros text c rest H0 H. exact (parse_name_first _ H0 H).
  - intros q I. unfold replace in I. apply in_flat_map in I.
    destruct I as (x & _ & I). destruct (N.eqb x (ch ",")) eqn:E.
    + vm_compute in I. destruct I as [I|[]]. discriminate.
    + apply N.eqb_neq in E. destruct I as [I|[]]. congruence.
  - vm_compute. reflexivity.
Qed.

Lemma C6_witness :
  exists c rest,
    re_match quantity_first (u "2 стакан² воды") = Some (c, rest)
    /\ exists q un n, groups c = Some (q, un, n)
         /\ _parse_ingredient_string (u "2 стакан² воды") =
              Returns (Some {| name := strip n;
                               quantity := replace (ch ",") (u ".") q;
                               unit := _normalize_unit (strip un) |}).
Proof.
  eexists. eexists.
  assert (H : re_match quantity_first (u "2 стакан² воды")
              = Some ([(3, u "воды"); (2, u "стакан²"); (1, u "2")], []))
    by (vm_compute; reflexivity).
  split; [exact H|].
  exact (proj1 C6_decimal_normalization _ _ _ H).
Defined.

(** C7: a line both patterns match is read quantity first: the quantity,
    the unit and the name of the result are the first, second and third
    group of the first pattern's match, whatever the match of the second
    pattern holds. *)
Theorem C7_quantity_first_wins (text : str) (c1 c2 : caps) (rest1 rest2 : str) :
  re_match quantity_first text = Some (c1, rest1) ->
  re_match name_first text = Some (c2, rest2) ->
  exists q un n,
    group c1 1 = Some q /\ group c1 2 = Some un /\ group c1 3 = Some n
    /\ _parse_ingredient_string text =
         Returns (Some {| name := strip n;
                          quantity := replace (ch ",") (u ".") q;
                          unit := _normalize_unit (strip un) |}).
Proof.
  intros H1 _. destruct (parse_quantity_first _ H1) as (q & un & n & G & E).
  exists q, un, n. unfold groups in G.
  destruct (group c1 1) as [g1|]; [|discriminate].
  destruct (group c1 2) as [g2|]; [|discriminate].
  destruct (group c1 3) as [g3|]; [|discriminate].
  inversion G; subst. repeat split. exact E.
Qed.

Lemma C7_witness :
  re_match quantity_first (u "2 стакан² - 3 г")
    = Some ([(3, u "3 г"); (2, u "стакан²"); (1, u "2")], [])
  /\ re_match name_first (u "2 стакан² - 3 г")
    = Some ([(3, u "г"); (2, u "3"); (1, u "2 стакан²")], [])
  /\ _parse_ingredient_string (u "2 стакан² - 3 г") =
       Returns (Some {| name := u "3 г"; quantity := u "2"; unit := u "стакан²" |}).
Proof.
  assert (H1 : re_match quantity_first (u "2 стакан² - 3 г")
               = Some ([(3, u "3 г"); (2, u "стакан²"); (1, u "2")], []))
    by (vm_compute; reflexivity).
  assert (H2 : re_match name_first (u "2 стакан² - 3 г")
               = Some ([(3, u "г"); (2, u "3"); (1, u "2 стакан²")], []))
    by (vm_compute; reflexivity).
  refine (conj H1 (conj H2 _)).
  destruct (C7_quantity_first_wins _ H1 H2) as (q & un & n & G1 & G2 & G3 & E).
  cbn [group Nat.eqb] in G1, G2, G3.
  inversion G1; inversion G2; inversion G3; subst.
  etransitivity; [exact E|]. vm_compute. reflexivity.
Defined.

Section Fallback.

(** Where a parsed ingredient comes from. *)
Lemma parse_cases (text : str) (i : ingredient) :
  _parse_ingredient_string text = Returns (Some i) ->
  (exists c rest q un n,
      re_match quantity_first text = Some (c, rest)
      /\ groups c = Some (q, un, n) /\ i = of_match q un n)
  \/ (exists c rest n q un,
        re_match name_first text = Some (c, rest)
        /\ groups c = Some (n, q, un) /\ i = of_match q un n)
  \/ i = {| name := text; quantity := u "1"; unit := u "шт" |}.
Proof.
  intros H. destruct (re_match quantity_first text) as [[c rest]|] eqn:H0.
  - left. destruct (parse_quantity_first _ H0) as (q & un & n & G & E).
    rewrite E in H. inversion H; subst. exists c, rest, q, un, n. auto.
  - destruct (re_match name_first text) as [[c rest]|] eqn:H1.
    + right. left. destruct (parse_name_first _ H0 H1) as (n & q & un & G & E).
      rewrite E in H. inversion H; subst. exists c, rest, n, q, un. auto.
    + right. right. rewrite (parse_no_match _ H0 H1) in H.
      destruct (Nat.ltb 2 (length text)); inversion H. reflexivity.
Qed.

(** An item the parser returns [None] for leaves the list as it was. *)
Lemma collect_skips (item : node) (rest : list node) (acc : list ingredient) :
  _parse_ingredient_string (get_text_strip item) = Returns None ->
  collect (item :: rest) acc = collect rest acc.
Proof.
  intros H. cbn [collect]. rewrite H. simpl. now destruct (nonempty (get_text_strip item)).
Qed.

(** The list extractor's loop over items never raises. *)
Lemma collect_returns (items : list node) : forall acc,
  exists l, collect items acc = Returns l /\ (acc <> [] -> l <> []).
Proof.
  induction items as [|item rest IH]; intros acc; cbn [collect].
  - exists acc. auto.
  - destruct (nonempty (get_text_strip item)); [|apply IH].
    destruct (parse_returns (get_text_strip item)) as ([i|] & E); rewrite E; simpl.
    + destruct (IH (acc ++ [i])) as (l & El & Hl). exists l. split; [assumption|].
      intros _. apply Hl. now destruct acc.
    + apply IH.
Qed.

End Fallback.

(** C8: a line neither pattern matches is taken whole as the name, with
    quantity "1" and unit "шт", when it is longer than 2 characters, and is
    unparseable ([None]) otherwise; a line of at most 2 characters is always
    of that kind; the list extractor skips an unparseable line and goes on
    with the items after it, without raising. *)
Theorem C8_no_pattern_fallback :
  (forall text,
      re_match quantity_first text = None ->
      re_match name_first text = None ->
      (2 < length text ->
         _parse_ingredient_string text =
           Returns (Some {| name := text; quantity := u "1"; unit := u "шт" |}))
      /\ (length text <= 2 -> _parse_ingredient_string text = Returns None))
  /\ (forall text, length text <= 2 -> _parse_ingredient_string text = Returns None)
  /\ (forall item rest acc,
        _parse_ingredient_string (get_text_strip item) = Returns None ->
        collect (item :: rest) acc = collect rest acc
        /\ exists l, collect rest acc = Returns l).
Proof.
  assert (A : forall text,
      re_match quantity_first text = None ->
      re_match name_first text = None ->
      (2 < length text ->
         _parse_ingredient_string text =
           Returns (Some {| name := text; quantity := u "1"; unit := u "шт" |}))
      /\ (length text <= 2 -> _parse_ingredient_string text = Returns None)).
  { intros text H0 H1. rewrite (parse_no_match _ H0 H1). split; intros L.
    - apply Nat.ltb_lt in L. now rewrite L.
    - apply Nat.ltb_ge in L. now rewrite L. }
  split; [exact A|split].
  - intros text L. destruct (short_line_no_match _ L) as [H0 H1].
    exact (proj2 (A _ H0 H1) L).
  - intros item rest acc H. split; [now apply collect_skips|].
    destruct (collect_returns rest acc) as (l & E & _). eauto.
Qed.

Lemma C8_witness :
  (_parse_ingredient_string (u "соль по вкусу") =
     Returns (Some {| name := u "соль по вкусу"; quantity := u "1"; unit := u "шт" |}))
  /\ _parse_ingredient_string (u "и") = Returns None
  /\ collect [Elem (u "li") [] [] [txt "и"]; Elem (u "li") [] [] [txt "соль по вкусу"]] []
     = collect [Elem (u "li") [] [] [txt "соль по вкусу"]] [].
Proof.
  assert (L1 : 2 < length (u "соль по вкусу")) by (vm_compute; lia).
  assert (L2 : length (u "и") <= 2) by (vm_compute; lia).
  assert (N1 : re_match quantity_first (u "соль по вкусу") = None) by (vm_compute; reflexivity).
  assert (N2 : re_match name_first (u "соль по вкусу") = None) by (vm_compute; reflexivity).
  assert (N3 : re_match quantity_first (u "и") = None) by (vm_compute; reflexivity).
  assert (N4 : re_match name_first (u "и") = None) by (vm_compute; reflexivity).
  pose proof (proj2 (proj1 C8_no_pattern_fallback _ N3 N4) L2) as P.
  refine (conj (proj1 (proj1 C8_no_pattern_fallback _ N1 N2) L1) (conj P _)).
  exact (proj1 (proj2 (proj2 C8_no_pattern_fallback)
                  (Elem (u "li") [] [] [txt "и"]) _ [] P)).
Defined.

(** C10: whenever the parser returns an ingredient, its quantity is not
    empty, holds no comma, and is a run of digits or two runs of digits
    around one decimal point; so it is on both pattern branches and on the
    whole-line branch. *)
Theorem C10_quantity_shape (text : str) (i : ingredient) :
  _parse_ingredient_string text = Returns (Some i) ->
  quantity i <> [] /\ ~ In (ch ",") (quantity i) /\ quantity_shape (quantity i).
Proof.
  intros H. destruct (parse_cases _ H)
    as [(c & rest & q & un & n & M & G & ->)|[(c & rest & n & q & un & M & G & ->)| ->]].
  - exact (quantity_of_number (quantity_first_number _ M G)).
  - exact (quantity_of_number (name_first_number _ M G)).
  - cbn [quantity]. repeat split.
    + discriminate.
    + vm_compute. intros [E|[]]. discriminate.
    + left. split; [discriminate|vm_compute; reflexivity].
Qed.

Lemma C10_witness :
  _parse_ingredient_string (u "៥ г муки") =
    Returns (Some {| name := u "муки"; quantity := u "៥"; unit := u "г" |})
  /\ _parse_ingredient_string (u "Соль – 1,5 ч.л.") =
    Returns (Some {| name := u "Соль"; quantity := u "1.5"; unit := u "ч.л." |})
  /\ quantity_shape (u "៥")
  /\ quantity_shape (u "1.5").
Proof.
  assert (H1 : _parse_ingredient_string (u "៥ г муки") =
    Returns (Some {| name := u "муки"; quantity := u "៥"; unit := u "г" |}))
    by (vm_compute; reflexivity).
  assert (H2 : _parse_ingredient_string (u "Соль – 1,5 ч.л.") =
    Returns (Some {| name := u "Соль"; quantity := u "1.5"; unit := u "ч.л." |}))
    by (vm_compute; reflexivity).
  refine (conj H1 (conj H2 (conj _ _))).
  - exact (proj2 (proj2 (C10_quantity_shape _ H1))).
  - exact (proj2 (proj2 (C10_quantity_shape _ H2))).
Defined.

(** *** The list extractor *)

Section Ingredients.

Variable page : node.

Lemma ingredients_loop_returns (selectors : list selector) : forall acc,
  exists r, ingredients_loop selectors page acc = Returns r
    /\ match r with inl l => l <> [] | inr l => l = acc end.
Proof.
  induction selectors as [|sel rest IH]; intros acc; cbn [ingredients_loop].
  - exists (inr acc). auto.
  - destruct (select_one page sel) as [element|]; [|apply IH].
    destruct (collect_returns (find_all element [u "li"]) acc) as (l & E & Hl).
    rewrite E. cbn [bind]. destruct l as [|i l].
    + destruct (IH []) as (r & Er & Hr). exists r. split; [assumption|].
      destruct r as [l|l]; [assumption|]. subst l.
      destruct acc; [reflexivity|]. exfalso. now apply Hl.
    + exists (inl (i :: l)). split; [reflexivity|discriminate].
Qed.

Lemma ingredients_loop_nothing (selectors : list selector) :
  (forall s, In s selectors -> container_yield page s = Returns []) ->
  ingredients_loop selectors page [] = Returns (inr []).
Proof.
  induction selectors as [|sel rest IH]; intros H; cbn [ingredients_loop]; [reflexivity|].
  pose proof (H sel (or_introl eq_refl)) as Hs. unfold container_yield in Hs.
  destruct (select_one page sel) as [element|].
  - rewrite Hs. cbn [bind]. apply IH. intros s I. apply H. now right.
  - apply IH. intros s I. apply H. now right.
Qed.

Lemma extract_ingredients_returns :
  exists l, _extract_ingredients page = Returns l /\ l <> [].
Proof.
  unfold _extract_ingredients.
  destruct (ingredients_loop_returns ingredients_selectors []) as (r & E & Hr).
  rewrite E. cbn [bind]. destruct r as [l|l].
  - exists l. auto.
  - destruct (collect_returns (find_all_class page [u "li"; u "p"] (u "ingredient")) l)
      as (l' & E' & _).
    rewrite E'. cbn [bind]. destruct l' as [|i l'].
    + exists placeholder_ingredients. split; [reflexivity|discriminate].
    + exists (i :: l'). split; [reflexivity|discriminate].
Qed.

End Ingredients.

(** C4: the ingredient-list extractor returns, and never an empty list;
    when neither the container selectors nor the class-pattern fallback
    yield a parsed item, it returns the two placeholder ingredients. *)
Theorem C4_ingredients_never_empty :
  (forall soup, exists l, _extract_ingredients soup = Returns l /\ l <> [])
  /\ (forall soup, nothing_parsed soup ->
        _extract_ingredients soup = Returns placeholder_ingredients)
  /\ length placeholder_ingredients = 2.
Proof.
  split; [exact extract_ingredients_returns|split; [|reflexivity]].
  intros soup [Hc Hf]. unfold _extract_ingredients.
  rewrite (ingredients_loop_nothing _ _ Hc). cbn [bind].
  unfold class_pattern_yield in Hf. rewrite Hf. reflexivity.
Qed.

Lemma C4_witness :
  nothing_parsed page_rich
  /\ _extract_ingredients page_rich = Returns placeholder_ingredients.
Proof.
  assert (H : nothing_parsed page_rich).
  { split; [|vm_compute; reflexivity].
    intros s I. unfold ingredients_selectors in I. simpl in I.
    repeat (destruct I as [<-|I]; [vm_compute; reflexivity|]). contradiction. }
  exact (conj H (proj1 (proj2 C4_ingredients_never_empty) _ H)).
Defined.

(** *** Fetching *)

(** C5, as stated, fails for a status that is not one of success and that
    [raise_for_status] lets through: the page that comes with status 300 is
    fetched and parsed, and a record is returned. *)
Lemma C5_counterexample :
  ~ success_status 300
  /\ fetch_fails_as_specified (Http 300 (Some page_rich))
  /\ fetch_page (Http 300 (Some page_rich)) init = (true, {| soup := Some page_rich |})
  /\ parse_recipe (Http 300 (Some page_rich)) init =
       Returns (Some {| title := u "Борщ"; description := u "Суп со свеклой";
                        instructions := u "1. Нарезать свеклу соломкой";
                        ingredients := placeholder_ingredients;
                        cooking_time := 45; servings := 6 |})
  /\ ~ (forall r self, fetch_fails_as_specified r -> parse_recipe r self = Returns None).
Proof.
  assert (S : ~ success_status 300) by (unfold success_status; lia).
  assert (P : parse_recipe (Http 300 (Some page_rich)) init =
       Returns (Some {| title := u "Борщ"; description := u "Суп со свеклой";
                        instructions := u "1. Нарезать свеклу соломкой";
                        ingredients := placeholder_ingredients;
                        cooking_time := 45; servings := 6 |}))
    by (vm_compute; reflexivity).
  refine (conj S (conj (or_introl S) (conj eq_refl (conj P _)))).
  intros H. rewrite (H (Http 300 (Some page_rich)) init (or_introl S)) in P.
  discriminate.
Qed.

(** C5, amended: when the fetch fails (no connection, timeout, a 4xx or 5xx
    status, a body BeautifulSoup cannot parse) [fetch_page] answers [False]
    and leaves the service as it was, and the top-level parse returns
    [None], whatever the response carried: no record, partial or not.  Any
    other response, whether its status is one of success or not, is
    fetched: [fetch_page] answers [True] and keeps the parsed body. *)
Theorem C5_fetch_failure_no_record (r : response) (self : service) :
  (fetch_fails r ->
     fetch_page r self = (false, self) /\ parse_recipe r self = Returns None)
  /\ (~ fetch_fails r ->
      exists status tree,
        r = Http status (Some tree)
        /\ ~ (400 <= status < 600)%Z
        /\ fetch_page r self = (true, {| soup := Some tree |})).
Proof.
  split.
  - unfold parse_recipe.
    destruct r as [| |status [tree|]]; simpl; intros H; try (split; reflexivity).
    destruct H as [H|H]; [|discriminate].
    unfold raise_for_status in H. unfold raise_for_status. rewrite H. split; reflexivity.
  - intros H. destruct r as [| |status [tree|]]; cbn [fetch_fails] in H.
    + exfalso. apply H. exact I.
    + exfalso. apply H. exact I.
    + destruct (raise_for_status status) eqn:RS; [exfalso; apply H; now left|].
      exists status, tree. split; [reflexivity|]. split.
      * unfold raise_for_status in RS. apply andb_false_iff in RS.
        destruct RS as [RS|RS]; [apply Z.leb_gt in RS|apply Z.ltb_ge in RS]; lia.
      * cbn [fetch_page]. now rewrite RS.
    + exfalso. apply H. now right.
Qed.

Lemma C5_witness :
  fetch_fails (Http 404 (Some page_rich))
  /\ fetch_fails Timeout
  /\ parse_recipe (Http 404 (Some page_rich)) init = Returns None
  /\ parse_recipe Timeout init = Returns None.
Proof.
  assert (F1 : fetch_fails (Http 404 (Some page_rich))) by (left; reflexivity).
  assert (F2 : fetch_fails Timeout) by exact I.
  exact (conj F1 (conj F2
    (conj (proj2 (proj1 (C5_fetch_failure_no_record (Http 404 (Some page_rich)) init) F1))
          (proj2 (proj1 (C5_fetch_failure_no_record Timeout init) F2))))).
Defined.

(** *** The selector loops of the field extractors *)

Section Loops.

Variable page : node.

Lemma search_binds (r : regex) (n : nat) (text before : str) (c : caps) (rest : str) :
  binds r n = true ->
  re_search r text = Some (before, c, rest) ->
  exists g, group c n = Some g.
Proof.
  intros B H. unfold re_search in H. apply search_from_in in H. destruct H as (s0 & H).
  pose proof (@run_binds r _ _ _ _ n B H) as G.
  destruct (group c n) as [g|]; [eauto|congruence].
Qed.

Lemma title_loop_first (before : list selector) (sel : selector)
  (after : list selector) (v : str) :
  (forall s, In s before -> title_strategy s page = None) ->
  title_strategy sel page = Some v ->
  title_loop (before ++ sel :: after) page = Some v.
Proof.
  intros Hb Hs. induction before as [|b before IH]; cbn [app title_loop].
  - unfold title_strategy in Hs. destruct (select_one page sel); [exact Hs|discriminate].
  - pose proof (Hb b (or_introl eq_refl)) as Hn. unfold title_strategy in Hn.
    destruct (select_one page b); [discriminate|].
    apply IH. intros s I. apply Hb. now right.
Qed.

Lemma title_loop_none (selectors : list selector) :
  (forall s, In s selectors -> select_one page s = None) ->
  title_loop selectors page = None.
Proof.
  induction selectors as [|sel rest IH]; intros H; cbn [title_loop]; [reflexivity|].
  rewrite (H sel (or_introl eq_refl)). apply IH. intros s I. apply H. now right.
Qed.

Lemma description_loop_first (before : list selector) (sel : selector)
  (after : list selector) (v : str) :
  (forall s, In s before -> description_strategy s page = None) ->
  description_strategy sel page = Some v ->
  description_loop (before ++ sel :: after) page = Some v.
Proof.
  intros Hb Hs. induction before as [|b before IH]; cbn [app description_loop].
  - unfold description_strategy, meta_strategy, title_strategy in Hs.
    destruct (String.prefix "meta" (css sel)).
    + destruct (select_one page sel) as [e|]; [|discriminate].
      destruct (get e (u "content")) as [c|]; [|discriminate].
      destruct (nonempty c); [exact Hs|discriminate].
    + destruct (select_one page sel); [exact Hs|discriminate].
  - assert (IH' : description_loop (before ++ sel :: after) page = Some v)
      by (apply IH; intros s I; apply Hb; now right).
    pose proof (Hb b (or_introl eq_refl)) as Hn.
    unfold description_strategy, meta_strategy, title_strategy in Hn.
    destruct (String.prefix "meta" (css b)).
    + destruct (select_one page b) as [e|]; [|exact IH'].
      destruct (get e (u "content")) as [c|]; [|exact IH'].
      destruct (nonempty c); [discriminate|exact IH'].
    + destruct (select_one page b); [discriminate|exact IH'].
Qed.

Lemma instructions_loop_first (before : list selector) (sel : selector)
  (after : list selector) (v : str) :
  (forall s, In s before -> instructions_strategy s page = None) ->
  instructions_strategy sel page = Some v ->
  instructions_loop (before ++ sel :: after) page = Some v.
Proof.
  intros Hb Hs. induction before as [|b before IH]; cbn [app instructions_loop].
  - unfold instructions_strategy in Hs.
    destruct (select_one page sel) as [e|]; [|discriminate].
    destruct (steps_of e); [discriminate|exact Hs].
  - assert (IH' : instructions_loop (before ++ sel :: after) page = Some v)
      by (apply IH; intros s I; apply Hb; now right).
    pose proof (Hb b (or_introl eq_refl)) as Hn. unfold instructions_strategy in Hn.
    destruct (select_one page b) as [e|]; [|exact IH'].
    destruct (steps_of e); [exact IH'|discriminate].
Qed.

(** What the search for [(\d+)] finds is a run of digits in group 1. *)
Lemma digits_found (text before : str) (c : caps) (rest : str) :
  re_search digits_re text = Some (before, c, rest) ->
  exists run, group c 1 = Some run /\ digits run.
Proof.
  intros S. destruct (search_binds digits_re 1 _ eq_refl S) as (g & G).
  exists g. split; [assumption|].
  unfold re_search in S. apply search_from_in in S. destruct S as (s0 & S).
  destruct (run_caps _ _ _ _ _ _ S G) as [G0|(a & I & L)]; [discriminate|].
  destruct I as [I|[]]. inversion I; subst. now apply plus_digits.
Qed.

Lemma number_loop_first (before : list selector) (sel : selector)
  (after : list selector) (o : outcome Z) :
  (forall s, In s before -> number_strategy s page = None) ->
  number_strategy sel page = Some o ->
  number_loop (before ++ sel :: after) page = (n <- o ;; Returns (Some n)).
Proof.
  intros Hb Hs. induction before as [|b before IH]; cbn [app number_loop].
  - unfold number_strategy in Hs.
    destruct (select_one page sel) as [e|]; [|discriminate].
    destruct (re_search digits_re (get_text e)) as [[[bf c] rest]|]; [|discriminate].
    inversion Hs. reflexivity.
  - assert (IH' : number_loop (before ++ sel :: after) page = (n <- o ;; Returns (Some n)))
      by (apply IH; intros s I; apply Hb; now right).
    pose proof (Hb b (or_introl eq_refl)) as Hn. unfold number_strategy in Hn.
    destruct (select_one page b) as [e|]; [|exact IH'].
    destruct (re_search digits_re (get_text e)) as [[[bf c] rest]|];
      [discriminate|exact IH'].
Qed.

(** What the selector loop found is what the extractor gives. *)
Lemma number_found (o rest : outcome Z) :
  (found <- (n <- o ;; Returns (Some n)) ;;
   match found with Some n => Returns n | None => rest end) = o.
Proof. destruct o; reflexivity. Qed.

Lemma extract_instructions_returns :
  exists v, _extract_instructions page = Returns v.
Proof.
  unfold _extract_instructions.
  destruct (instructions_loop instructions_selectors page); [eauto|].
  destruct (re_search instructions_re (get_text page)) as [[[bf c] rest]|] eqn:E; [|eauto].
  assert (B : binds instructions_re 2 = true) by reflexivity.
  destruct (search_binds instructions_re 2 _ B E) as (g & G).
  unfold group_str. rewrite G. cbn [bind]. eauto.
Qed.

(** The parse of a page that was fetched: the instructions and the
    ingredients are always there, the two numbers come next, and the record
    is handed out unless its title is the empty string. *)
Lemma parse_fetched (status : Z) (self : service) :
  raise_for_status status = false ->
  exists ins ing,
    parse_recipe (Http status (Some page)) self =
      (ct <- _extract_cooking_time page ;;
       sv <- _extract_servings page ;;
       if nonempty (_extract_title page)
       then Returns (Some {| title := _extract_title page;
                             description := _extract_description page;
                             instructions := ins; ingredients := ing;
                             cooking_time := ct; servings := sv |})
       else Returns None).
Proof.
  intros H. unfold parse_recipe, fetch_page. rewrite H. cbn [negb soup].
  destruct extract_instructions_returns as (ins & E1).
  destruct (extract_ingredients_returns page) as (ing & E2 & _).
  rewrite E1, E2. cbn [bind title]. exists ins, ing. reflexivity.
Qed.

Lemma exhausted_placeholder :
  title_exhausted page -> _extract_title page = title_placeholder.
Proof.
  intros [Hs Ht]. unfold _extract_title. now rewrite (@title_loop_none _ Hs), Ht.
Qed.

End Loops.

Lemma page_plain_exhausted : title_exhausted page_plain.
Proof.
  split; [|vm_compute; reflexivity].
  intros s I. vm_compute in I.
  repeat (destruct I as [<-|I]; [vm_compute; reflexivity|]). contradiction.
Qed.

(** C1, as stated, fails: on a fetched page without any heading and without
    a title tag the title strategies are exhausted, the title extractor
    gives the placeholder, and the top-level parse returns a record. *)
Lemma C1_counterexample :
  title_exhausted page_plain
  /\ _extract_title page_plain = title_placeholder
  /\ parse_recipe (Http 200 (Some page_plain)) init <> Returns None
  /\ ~ (forall page, title_exhausted page ->
          parse_recipe (Http 200 (Some page)) init = Returns None).
Proof.
  assert (P : parse_recipe (Http 200 (Some page_plain)) init <> Returns None)
    by (vm_compute; discriminate).
  refine (conj page_plain_exhausted (conj _ (conj P _))).
  - vm_compute. reflexivity.
  - intros H. exact (P (H _ page_plain_exhausted)).
Qed.

(** C1, amended: on a fetched page whose title strategies are exhausted the
    title is the placeholder and the top-level parse does not return
    [None]: once the cooking-time and the servings extractor have returned,
    it returns a record, whose title is the placeholder.  On a fetched page
    the parse raises exactly when one of these two extractors raises (the
    conversion of a run of more than 4300 digits), and it returns [None]
    exactly when both return and the extracted title is the empty
    string. *)
Theorem C1_placeholder_title_is_returned (status : Z) (page : node) (self : service) :
  raise_for_status status = false ->
  (title_exhausted page ->
     _extract_title page = title_placeholder
     /\ parse_recipe (Http status (Some page)) self <> Returns None
     /\ forall ct sv,
          _extract_cooking_time page = Returns ct ->
          _extract_servings page = Returns sv ->
          exists data,
            parse_recipe (Http status (Some page)) self = Returns (Some data)
            /\ title data = title_placeholder
            /\ cooking_time data = ct /\ servings data = sv)
  /\ (parse_recipe (Http status (Some page)) self = Raises
      <-> _extract_cooking_time page = Raises \/ _extract_servings page = Raises)
  /\ (parse_recipe (Http status (Some page)) self = Returns None
      <-> _extract_title page = []
          /\ _extract_cooking_time page <> Raises
          /\ _extract_servings page <> Raises).
Proof.
  intros H. destruct (@parse_fetched page status self H) as (ins & ing & P).
  rewrite P. clear P. split; [|split].
  - intros X. pose proof (exhausted_placeholder X) as E. rewrite E.
    replace (nonempty title_placeholder) with true by reflexivity.
    split; [reflexivity|]. split.
    + destruct (_extract_cooking_time page), (_extract_servings page);
        cbn [bind]; discriminate.
    + intros ct sv -> ->. cbn [bind]. eexists. split; [reflexivity|].
      cbn [title cooking_time servings]. auto.
  - destruct (_extract_cooking_time page), (_extract_servings page); cbn [bind];
      try destruct (nonempty (_extract_title page)); intuition congruence.
  - destruct (_extract_cooking_time page), (_extract_servings page); cbn [bind];
      destruct (_extract_title page); cbn [nonempty]; intuition congruence.
Qed.

Lemma C1_witness :
  raise_for_status 200 = false
  /\ title_exhausted page_plain
  /\ (exists data,
        parse_recipe (Http 200 (Some page_plain)) init = Returns (Some data)
        /\ title data = title_placeholder
        /\ cooking_time data = 30%Z /\ servings data = 4%Z)
  /\ _extract_cooking_time page_long_run = Raises
  /\ parse_recipe (Http 200 (Some page_long_run)) init = Raises.
Proof.
  assert (S : raise_for_status 200 = false) by reflexivity.
  assert (C : _extract_cooking_time page_plain = Returns 30%Z)
    by (vm_compute; reflexivity).
  assert (V : _extract_servings page_plain = Returns 4%Z)
    by (vm_compute; reflexivity).
  assert (R : _extract_cooking_time page_long_run = Raises)
    by (vm_compute; reflexivity).
  refine (conj S (conj page_plain_exhausted (conj _ (conj R _)))).
  - exact (proj2 (proj2 (proj1 (@C1_placeholder_title_is_returned 200 page_plain init S)
                           page_plain_exhausted)) _ _ C V).
  - exact (proj2 (proj1 (proj2 (@C1_placeholder_title_is_returned 200 page_long_run init S)))
                 (or_introl R)).
Defined.

(** C2, as stated, fails for the title: on the page with an empty
    [h1.recipe-title] before a [.recipe-header h1] that reads "Борщ", the
    first selector finds the empty heading and the extractor returns its
    empty text; the later strategy, the first one with a non-empty result,
    is never tried. *)
Lemma C2_counterexample :
  title_strategy (nth 0 title_selectors (Selector "" [])) page_empty_heading = Some []
  /\ title_strategy (nth 1 title_selectors (Selector "" [])) page_empty_heading = None
  /\ title_strategy (nth 2 title_selectors (Selector "" [])) page_empty_heading = None
  /\ title_strategy (nth 3 title_selectors (Selector "" [])) page_empty_heading
     = Some (u "Борщ")
  /\ _extract_title page_empty_heading = []
  /\ ~ (forall soup before selector after v,
          title_selectors = before ++ selector :: after ->
          (forall s, In s before ->
             title_strategy s soup = None \/ title_strategy s soup = Some []) ->
          title_strategy selector soup = Some v -> v <> [] ->
          _extract_title soup = v).
Proof.
  repeat (split; [vm_compute; reflexivity|]).
  intros H.
  specialize (H page_empty_heading (firstn 3 title_selectors)
                (nth 3 title_selectors (Selector "" [])) (skipn 4 title_selectors)
                (u "Борщ")).
  assert (E : _extract_title page_empty_heading = u "Борщ").
  { apply H.
    - vm_compute. reflexivity.
    - intros s I. vm_compute in I.
      destruct I as [<-|[<-|[<-|[]]]];
        [right|left|left]; vm_compute; reflexivity.
    - vm_compute. reflexivity.
    - vm_compute. discriminate. }
  vm_compute in E. discriminate.
Qed.

(** C2, amended: every extractor goes through its selectors in order and
    returns what the first strategy that finds something finds.  For the
    title and for the description outside the meta tags a strategy finds
    something as soon as its selector finds an element, whose stripped text
    is the result even when it is empty; for a meta tag the [content]
    attribute is used, and a missing or empty one does not end the search;
    for the instructions a container without a step does not end it, nor
    does, for cooking time and servings, an element without a digit in its
    text.  For these two what is found is the number the first run of
    digits writes, in whatever script the digits are, or the exception of
    the conversion when the run is too long; the text of a [script] or
    [style] element is what the element holds, though the text of the page
    leaves it out. *)
Theorem C2_first_hit_wins (soup : node) :
  (forall v, first_hit title_strategy title_selectors soup v ->
             _extract_title soup = v)
  /\ (forall v, first_hit description_strategy description_selectors soup v ->
                _extract_description soup = v)
  /\ (forall v, first_hit instructions_strategy instructions_selectors soup v ->
                _extract_instructions soup = Returns v)
  /\ (forall o, first_hit number_strategy cooking_time_selectors soup o ->
                _extract_cooking_time soup = o)
  /\ (forall o, first_hit number_strategy servings_selectors soup o ->
                _extract_servings soup = o)
  /\ (forall selector element,
        select_one soup selector = Some element ->
        title_strategy selector soup = Some (get_text_strip element))
  /\ (forall selector element content,
        select_one soup selector = Some element ->
        get element (u "content") = Some content -> content <> [] ->
        meta_strategy selector soup = Some (strip content))
  /\ (forall selector element before c rest,
        select_one soup selector = Some element ->
        re_search digits_re (get_text element) = Some (before, c, rest) ->
        exists run, group c 1 = Some run /\ digits run
          /\ number_strategy selector soup = Some (to_int run))
  /\ (forall run, length run <= int_max_str_digits ->
                  to_int run = Returns (decimal_value run))
  /\ (forall run, int_max_str_digits < length run -> to_int run = Raises).
Proof.
  repeat split.
  - intros v (before & sel & after & E & Hb & Hs). unfold _extract_title.
    now rewrite E, (@title_loop_first soup before sel after v Hb Hs).
  - intros v (before & sel & after & E & Hb & Hs). unfold _extract_description.
    now rewrite E, (@description_loop_first soup before sel after v Hb Hs).
  - intros v (before & sel & after & E & Hb & Hs). unfold _extract_instructions.
    now rewrite E, (@instructions_loop_first soup before sel after v Hb Hs).
  - intros o (before & sel & after & E & Hb & Hs). unfold _extract_cooking_time.
    rewrite E, (@number_loop_first soup before sel after o Hb Hs). apply number_found.
  - intros o (before & sel & after & E & Hb & Hs). unfold _extract_servings.
    rewrite E, (@number_loop_first soup before sel after o Hb Hs). apply number_found.
  - intros sel e H. unfold title_strategy. now rewrite H.
  - intros sel e c H G N. unfold meta_strategy. rewrite H, G.
    destruct c; [contradiction|reflexivity].
  - intros sel e before c rest H S. unfold number_strategy. rewrite H, S.
    destruct (digits_found _ S) as (run & G & D). exists run.
    repeat split; try assumption; try apply D.
    unfold group_int, group_str. now rewrite G.
  - intros run L. unfold to_int. apply Nat.ltb_ge in L. now rewrite L.
  - intros run L. unfold to_int. apply Nat.ltb_lt in L. now rewrite L.
Qed.

Lemma C2_witness :
  first_hit title_strategy title_selectors page_rich (u "Борщ")
  /\ first_hit description_strategy description_selectors page_rich (u "Суп со свеклой")
  /\ first_hit instructions_strategy instructions_selectors page_rich
       (u "1. Нарезать свеклу соломкой")
  /\ first_hit number_strategy cooking_time_selectors page_rich (Returns 45%Z)
  /\ first_hit number_strategy servings_selectors page_rich (Returns 6%Z)
  /\ first_hit number_strategy cooking_time_selectors page_digits (Returns 45%Z)
  /\ first_hit number_strategy servings_selectors page_digits (Returns 8%Z)
  /\ first_hit number_strategy cooking_time_selectors page_long_run Raises
  /\ _extract_title page_rich = u "Борщ"
  /\ _extract_description page_rich = u "Суп со свеклой"
  /\ _extract_instructions page_rich = Returns (u "1. Нарезать свеклу соломкой")
  /\ _extract_cooking_time page_rich = Returns 45%Z
  /\ _extract_servings page_rich = Returns 6%Z
  /\ _extract_cooking_time page_digits = Returns 45%Z
  /\ _extract_servings page_digits = Returns 8%Z
  /\ _extract_cooking_time page_long_run = Raises.
Proof.
  assert (H1 : first_hit title_strategy title_selectors page_rich (u "Борщ"))
    by hit_at 2 title_selectors.
  assert (H2 : first_hit description_strategy description_selectors page_rich
                 (u "Суп со свеклой"))
    by hit_at 2 description_selectors.
  assert (H3 : first_hit instructions_strategy instructions_selectors page_rich
                 (u "1. Нарезать свеклу соломкой"))
    by hit_at 2 instructions_selectors.
  assert (H4 : first_hit number_strategy cooking_time_selectors page_rich (Returns 45%Z))
    by hit_at 2 cooking_time_selectors.
  assert (H5 : first_hit number_strategy servings_selectors page_rich (Returns 6%Z))
    by hit_at 2 servings_selectors.
  assert (H6 : first_hit number_strategy cooking_time_selectors page_digits (Returns 45%Z))
    by hit_at 1 cooking_time_selectors.
  assert (H7 : first_hit number_strategy servings_selectors page_digits (Returns 8%Z))
    by hit_at 2 servings_selectors.
  assert (H8 : first_hit number_strategy cooking_time_selectors page_long_run Raises)
    by hit_at 1 cooking_time_selectors.
  pose proof (C2_first_hit_wins page_rich) as (T1 & T2 & T3 & T4 & T5 & _).
  pose proof (C2_first_hit_wins page_digits) as (_ & _ & _ & D4 & D5 & _).
  pose proof (C2_first_hit_wins page_long_run) as (_ & _ & _ & L4 & _).
  exact
    (conj H1
    ( conj H2
    ( conj H3
    ( conj H4
    ( conj H5
    ( conj H6
    ( conj H7
    ( conj H8
    ( conj (T1 _ H1)
    ( conj (T2 _ H2)
    ( conj (T3 _ H3)
    ( conj (T4 _ H4)
    ( conj (T5 _ H5)
    ( conj (D4 _ H6)
    (conj (D5 _ H7) (L4 _ H8)))))))))))))))).
Defined.

(** ** Further properties of the service *)

(** *** The normalizer and the per-item parser *)

Section ParserFacts.

Lemma canonical_unit_fixed (unit : str) :
  In unit canonical_units -> _normalize_unit unit = unit.
Proof.
  intros H. unfold canonical_units in H. simpl in H.
  repeat (destruct H as [<-|H]; [vm_compute; reflexivity|]). contradiction.
Qed.

Lemma unit_map_values (key value : str) :
  In (key, value) unit_map -> In value canonical_units.
Proof.
  intros H. unfold unit_map in H. simpl in H.
  repeat (destruct H as [H|H]; [inversion H; subst; vm_compute; tauto|]).
  contradiction.
Qed.

Lemma normalize_cases (unit : str) :
  _normalize_unit unit = unit \/ In (_normalize_unit unit) canonical_units.
Proof.
  unfold _normalize_unit.
  destruct (normalize_loop_cases unit_map (drop_dots_spaces (lower unit)) unit)
    as [[E _]|(k & v & I & _ & E)]; [now left|].
  right. rewrite E. eapply unit_map_values. exact I.
Qed.

(** The same statement as for the claim on the quantity, for use below. *)
Lemma parsed_quantity (text : str) (i : ingredient) :
  _parse_ingredient_string text = Returns (Some i) ->
  well_formed_quantity (quantity i).
Proof.
  intros H. unfold well_formed_quantity. destruct (parse_cases _ H)
    as [(c & rest & q & un & n & M & G & ->)|[(c & rest & n & q & un & M & G & ->)| ->]].
  - exact (quantity_of_number (quantity_first_number _ M G)).
  - exact (quantity_of_number (name_first_number _ M G)).
  - cbn [quantity]. repeat split.
    + discriminate.
    + vm_compute. intros [E|[]]. discriminate.
    + left. split; [discriminate|vm_compute; reflexivity].
Qed.

Lemma in_range_out (lo hi c : cp) :
  (c < lo \/ hi < c)%N -> in_range lo hi c = false.
Proof.
  intros H. unfold in_range. apply andb_false_iff.
  destruct H as [H|H]; [left|right]; apply N.leb_gt; exact H.
Qed.

(** Where the white space lies among the code points. *)
Lemma space_places (x : cp) :
  isspace x = true -> (x <= 32 \/ x = 133 \/ x = 160 \/ 5760 <= x)%N.
Proof.
  unfold isspace, in_range. intros H.
  repeat match goal with
         | H : orb _ _ = true |- _ => apply orb_true_iff in H; destruct H as [H|H]
         | H : andb _ _ = true |- _ => apply andb_true_iff in H; destruct H as [? H]
         | H : N.leb _ _ = true |- _ => apply N.leb_le in H
         | H : N.eqb _ _ = true |- _ => apply N.eqb_eq in H
         end; lia.
Qed.

(** White space is no capital letter. *)
Lemma space_lower (x : cp) : isspace x = true -> lower_cp x = x.
Proof.
  intros H. apply space_places in H. unfold lower_cp.
  rewrite (@in_range_out 65%N 90%N x) by lia.
  rewrite (@in_range_out 192%N 222%N x) by lia.
  rewrite (@in_range_out 1024%N 1039%N x) by lia.
  rewrite (@in_range_out 1040%N 1071%N x) by lia.
  reflexivity.
Qed.

(** A character that a literal without white space among its cases matches
    under [re.IGNORECASE] is no white space. *)
Lemma folded_not_space (c x : cp) :
  forallb (fun y => negb (isspace y)) (lower_cp c :: fixes (lower_cp c)) = true ->
  existsb (N.eqb (lower_cp x)) (lower_cp c :: fixes (lower_cp c)) = true ->
  isspace x = false.
Proof.
  intros A E. apply existsb_exists in E. destruct E as (y & I & E).
  apply N.eqb_eq in E. rewrite forallb_forall in A. specialize (A _ I).
  apply negb_true_iff in A. destruct (isspace x) eqn:Hx; [|reflexivity].
  rewrite (space_lower _ Hx) in E. congruence.
Qed.

Lemma lang_starts (Q : cp -> Prop) (r : regex) : forall w,
  starts_in Q r -> lang r w -> exists x rest, w = x :: rest /\ Q x.
Proof.
  induction r as [|p|a IHa b IHb|a IHa b IHb|a IHa|p|p|n a IHa|a IHa|];
    intros w S; simpl in S; try contradiction; simpl.
  - intros (x & -> & Hx). exists x, []. auto.
  - intros (w1 & w2 & -> & L1 & _). destruct (IHa _ S L1) as (x & rest & -> & Hx).
    exists x, (rest ++ w2). auto.
  - destruct S as [Sa Sb]. intros [L|L]; eauto.
  - eauto.
Qed.

Lemma unit_token_starts : starts_in (fun x => isspace x = false) unit_token.
Proof.
  unfold unit_token.
  repeat match goal with
         | |- context [u ?s] =>
             let v := eval vm_compute in (u s) in change (u s) with v
         end.
  cbn [alt cat lit_i chr_i fold_left fold_right map starts_in].
  repeat split; intros x H; refine (@folded_not_space _ x _ H); vm_compute; reflexivity.
Qed.

Lemma lstrip_keeps (x : cp) (s : str) :
  In x s -> isspace x = false -> In x (lstrip s).
Proof.
  induction s as [|y s IH]; [contradiction|]. intros I Hx. cbn [lstrip].
  destruct (isspace y) eqn:Hy; [|exact I].
  destruct I as [->|I]; [congruence|auto].
Qed.

Lemma strip_keeps (x : cp) (s : str) :
  In x s -> isspace x = false -> In x (strip s).
Proof.
  intros I Hx. unfold strip. rewrite <- in_rev. apply lstrip_keeps; [|assumption].
  rewrite <- in_rev. now apply lstrip_keeps.
Qed.

Lemma normalize_nonempty (unit : str) : unit <> [] -> _normalize_unit unit <> [].
Proof.
  intros N. destruct (normalize_cases unit) as [E|I]; [now rewrite E|].
  intros E. rewrite E in I. vm_compute in I.
  repeat (destruct I as [I|I]; [discriminate|]). contradiction.
Qed.

Lemma quantity_first_unit (text : str) (c : caps) (rest q un n : str) :
  re_match quantity_first text = Some (c, rest) ->
  groups c = Some (q, un, n) -> lang unit_token un.
Proof.
  intros H G. apply re_match_in in H.
  assert (G2 : group c 2 = Some un).
  { unfold groups in G. destruct (group c 1), (group c 2), (group c 3); congruence. }
  destruct (run_caps _ _ _ _ _ _ H G2) as [G0|(a & I & L)]; [discriminate|].
  rewrite groups_of_quantity_first in I.
  destruct I as [I|[I|[I|[]]]]; inversion I; subst. assumption.
Qed.

Lemma name_first_unit (text : str) (c : caps) (rest n q un : str) :
  re_match name_first text = Some (c, rest) ->
  groups c = Some (n, q, un) -> lang unit_token un.
Proof.
  intros H G. apply re_match_in in H.
  assert (G3 : group c 3 = Some un).
  { unfold groups in G. destruct (group c 1), (group c 2), (group c 3); congruence. }
  destruct (run_caps _ _ _ _ _ _ H G3) as [G0|(a & I & L)]; [discriminate|].
  rewrite groups_of_name_first in I.
  destruct I as [I|[I|[I|[]]]]; inversion I; subst. assumption.
Qed.

Lemma of_match_unit_nonempty (q un n : str) :
  lang unit_token un -> unit (of_match q un n) <> [].
Proof.
  intros L. cbn [of_match unit]. apply normalize_nonempty.
  destruct (@lang_starts _ unit_token un unit_token_starts L) as (x & rest & -> & Hx).
  intros E. assert (I : In x (strip (x :: rest))) by (apply strip_keeps; [now left|assumption]).
  now rewrite E in I.
Qed.

Lemma parsed_unit (text : str) (i : ingredient) :
  _parse_ingredient_string text = Returns (Some i) -> unit i <> [].
Proof.
  intros H. destruct (parse_cases _ H)
    as [(c & rest & q & un & n & M & G & ->)|[(c & rest & n & q & un & M & G & ->)| ->]].
  - apply of_match_unit_nonempty. exact (quantity_first_unit _ M G).
  - apply of_match_unit_nonempty. exact (name_first_unit _ M G).
  - discriminate.
Qed.

End ParserFacts.

(** X1: the normalizer is idempotent, and what it returns is a canonical
    unit or its input. *)
Theorem X1_normalize_idempotent (unit : str) :
  _normalize_unit (_normalize_unit unit) = _normalize_unit unit
  /\ (In (_normalize_unit unit) canonical_units \/ _normalize_unit unit = unit).
Proof.
  destruct (normalize_cases unit) as [E|I].
  - split; [now rewrite E|now right].
  - split; [now apply canonical_unit_fixed|now left].
Qed.

(** X2: the per-item parser never raises, and it reports a line as
    unparseable exactly when the line has at most 2 characters. *)
Theorem X2_unparseable_iff_short (text : str) :
  (exists r, _parse_ingredient_string text = Returns r)
  /\ (_parse_ingredient_string text = Returns None <-> length text <= 2).
Proof.
  split; [apply parse_returns|]. split.
  - intros H. destruct (re_match quantity_first text) as [[c rest]|] eqn:H0.
    + destruct (parse_quantity_first _ H0) as (q & un & n & _ & E). congruence.
    + destruct (re_match name_first text) as [[c rest]|] eqn:H1.
      * destruct (parse_name_first _ H0 H1) as (n & q & un & _ & E). congruence.
      * rewrite (parse_no_match _ H0 H1) in H.
        destruct (Nat.ltb 2 (length text)) eqn:L; [discriminate|].
        now apply Nat.ltb_ge in L.
  - intros L. destruct (short_line_no_match _ L) as [H0 H1].
    rewrite (parse_no_match _ H0 H1). apply Nat.ltb_ge in L. now rewrite L.
Qed.

(** X3: every ingredient the per-item parser returns has a unit that is not
    the empty string, on the pattern branches as on the whole-line one. *)
Theorem X3_parsed_unit_nonempty (text : str) (i : ingredient) :
  _parse_ingredient_string text = Returns (Some i) -> unit i <> [].
Proof. apply parsed_unit. Qed.

Lemma X3_witness :
  _parse_ingredient_string (u "2 Стакана молока") =
    Returns (Some {| name := u "молока"; quantity := u "2"; unit := u "Стакана" |})
  /\ u "Стакана" <> [].
Proof.
  assert (H : _parse_ingredient_string (u "2 Стакана молока") =
    Returns (Some {| name := u "молока"; quantity := u "2"; unit := u "Стакана" |}))
    by (vm_compute; reflexivity).
  exact (conj H (X3_parsed_unit_nonempty _ H)).
Defined.

(** *** The ingredient list and the record *)

Section ListFacts.

Variable P : ingredient -> Prop.
Hypothesis parsed_ok :
  forall text i, _parse_ingredient_string text = Returns (Some i) -> P i.

Lemma collect_forall (items : list node) : forall acc l,
  Forall P acc -> collect items acc = Returns l -> Forall P l.
Proof.
  induction items as [|item rest IH]; intros acc l HA; cbn [collect].
  - intros E. inversion E; subst. assumption.
  - destruct (nonempty (get_text_strip item)); [|now apply IH].
    destruct (_parse_ingredient_string (get_text_strip item)) as [[i|]|] eqn:E;
      cbn [bind]; [| now apply IH | discriminate].
    apply IH. apply Forall_app. split; [assumption|].
    constructor; [|constructor]. eapply parsed_ok. exact E.
Qed.

Lemma ingredients_loop_forall (page : node) (selectors : list selector) : forall acc r,
  Forall P acc -> ingredients_loop selectors page acc = Returns r ->
  Forall P (match r with inl l => l | inr l => l end).
Proof.
  induction selectors as [|sel rest IH]; intros acc r HA; cbn [ingredients_loop].
  - intros E. inversion E; subst. assumption.
  - destruct (select_one page sel) as [element|]; [|now apply IH].
    destruct (collect (find_all element [u "li"]) acc) as [l'|] eqn:E;
      cbn [bind]; [|discriminate].
    assert (HL : Forall P l') by (eapply collect_forall; [exact HA|exact E]).
    destruct l' as [|i l'].
    + apply IH. constructor.
    + intros E'. inversion E'; subst. assumption.
Qed.

Lemma extract_ingredients_forall (page : node) (l : list ingredient) :
  Forall P placeholder_ingredients ->
  _extract_ingredients page = Returns l -> Forall P l.
Proof.
  intros HP. unfold _extract_ingredients.
  destruct (ingredients_loop ingredients_selectors page []) as [r|] eqn:E;
    cbn [bind]; [|discriminate].
  assert (HR : Forall P (match r with inl l => l | inr l => l end))
    by (eapply ingredients_loop_forall; [apply Forall_nil|exact E]).
  destruct r as [l0|l0].
  - intros E'. inversion E'; subst. assumption.
  - destruct (collect (find_all_class page [u "li"; u "p"] (u "ingredient")) l0)
      as [l1|] eqn:E1; cbn [bind]; [|discriminate].
    assert (H1 : Forall P l1) by (eapply collect_forall; [exact HR|exact E1]).
    destruct l1; intros E'; inversion E'; subst; assumption.
Qed.

End ListFacts.

Section RecordFacts.

Lemma placeholders_sound : Forall sound_ingredient placeholder_ingredients.
Proof.
  repeat constructor; try discriminate;
    try (vm_compute; intros H; repeat (destruct H as [H|H]; [discriminate|]); contradiction);
    left; (split; [discriminate|vm_compute; reflexivity]).
Qed.

Lemma parsed_sound (text : str) (i : ingredient) :
  _parse_ingredient_string text = Returns (Some i) -> sound_ingredient i.
Proof.
  intros H. split; [eapply parsed_quantity|eapply parsed_unit]; exact H.
Qed.

Lemma decimal_value_nonneg (s : str) : (0 <= decimal_value s)%Z.
Proof.
  unfold decimal_value.
  assert (A : forall s acc, (0 <= acc)%Z ->
            (0 <= fold_left
                    (fun acc c => match digit_value c with
                                  | Some d => (10 * acc + Z.of_N d)%Z
                                  | None => acc
                                  end) s acc)%Z).
  { clear s. induction s as [|c s IH]; intros acc Ha; cbn [fold_left]; [assumption|].
    apply IH. destruct (digit_value c) as [d|]; [|assumption].
    pose proof (N2Z.is_nonneg d). lia. }
  apply A. lia.
Qed.

Lemma group_int_nonneg (c : caps) (n : nat) (v : Z) :
  group_int c n = Returns v -> (0 <= v)%Z.
Proof.
  unfold group_int, group_str, to_int. destruct (group c n) as [g|]; cbn [bind]; [|discriminate].
  destruct (Nat.ltb int_max_str_digits (length g)); [discriminate|].
  intros E. inversion E. apply decimal_value_nonneg.
Qed.

Lemma number_loop_nonneg (page : node) (selectors : list selector) (v : Z) :
  number_loop selectors page = Returns (Some v) -> (0 <= v)%Z.
Proof.
  induction selectors as [|sel rest IH]; cbn [number_loop]; [discriminate|].
  destruct (select_one page sel) as [e|]; [|exact IH].
  destruct (re_search digits_re (get_text e)) as [[[bf c] rest']|]; [|exact IH].
  destruct (group_int c 1) as [n|] eqn:E; cbn [bind]; [|discriminate].
  intros E'. inversion E'; subst. eapply group_int_nonneg. exact E.
Qed.

Lemma number_in_text_nonneg (page : node) (pattern : regex) (default v : Z) :
  (0 <= default)%Z ->
  number_in_text pattern default page = Returns v -> (0 <= v)%Z.
Proof.
  intros D. unfold number_in_text.
  destruct (re_search pattern (get_text page)) as [[[bf c] rest]|].
  - apply group_int_nonneg.
  - intros E. inversion E; subst. assumption.
Qed.

Lemma cooking_time_nonneg (page : node) (v : Z) :
  _extract_cooking_time page = Returns v -> (0 <= v)%Z.
Proof.
  unfold _extract_cooking_time.
  destruct (number_loop cooking_time_selectors page) as [[n|]|] eqn:E;
    cbn [bind]; [| |discriminate].
  - intros E'. inversion E'; subst. eapply number_loop_nonneg. exact E.
  - apply number_in_text_nonneg. lia.
Qed.

Lemma servings_nonneg (page : node) (v : Z) :
  _extract_servings page = Returns v -> (0 <= v)%Z.
Proof.
  unfold _extract_servings.
  destruct (number_loop servings_selectors page) as [[n|]|] eqn:E;
    cbn [bind]; [| |discriminate].
  - intros E'. inversion E'; subst. eapply number_loop_nonneg. exact E.
  - apply number_in_text_nonneg. lia.
Qed.

(** What a returned record is made of. *)
Lemma parse_some (r : response) (self : service) (data : recipe_data) :
  parse_recipe r self = Returns (Some data) ->
  exists status tree,
    r = Http status (Some tree) /\ raise_for_status status = false
    /\ title data = _extract_title tree /\ title data <> []
    /\ description data = _extract_description tree
    /\ _extract_instructions tree = Returns (instructions data)
    /\ _extract_ingredients tree = Returns (ingredients data)
    /\ _extract_cooking_time tree = Returns (cooking_time data)
    /\ _extract_servings tree = Returns (servings data).
Proof.
  unfold parse_recipe, fetch_page.
  destruct r as [| |status [tree|]]; cbn [negb]; try discriminate.
  destruct (raise_for_status status) eqn:RS; cbn [negb soup]; [discriminate|].
  destruct (_extract_instructions tree) as [ins|] eqn:E1; cbn [bind]; [|discriminate].
  destruct (_extract_ingredients tree) as [ing|] eqn:E2; cbn [bind]; [|discriminate].
  destruct (_extract_cooking_time tree) as [ct|] eqn:E3; cbn [bind]; [|discriminate].
  destruct (_extract_servings tree) as [sv|] eqn:E4; cbn [bind]; [|discriminate].
  cbv zeta. cbn [title]. destruct (_extract_title tree) eqn:T; cbn [nonempty]; [discriminate|].
  intros E. inversion E; subst. cbn.
  exists status, tree.
  repeat split; try reflexivity; try assumption; try (symmetry; assumption).
  discriminate.
Qed.

End RecordFacts.

(** X4: the list extractor always returns, and every ingredient of its list,
    parsed or placeholder, has a well-formed quantity and a non-empty
    unit. *)
Theorem X4_ingredient_list_sound (page : node) :
  exists l, _extract_ingredients page = Returns l /\ l <> []
            /\ Forall sound_ingredient l.
Proof.
  destruct (extract_ingredients_returns page) as (l & E & N).
  exists l. repeat split; try assumption.
  eapply extract_ingredients_forall; [exact parsed_sound|exact placeholders_sound|exact E].
Qed.

(** X5: when the top-level parse returns a record, the page was fetched
    with a status outside 400..599, and the record has a non-empty title, a
    non-empty list of ingredients that are all sound, and a cooking time
    and a number of servings that are not negative.  The parse raises only
    on a fetched page on which the cooking-time or the servings extractor
    raises. *)
Theorem X5_record_invariant (r : response) (self : service) :
  (forall data,
     parse_recipe r self = Returns (Some data) ->
     (exists status tree, r = Http status (Some tree)
                          /\ raise_for_status status = false)
     /\ title data <> []
     /\ ingredients data <> []
     /\ Forall sound_ingredient (ingredients data)
     /\ (0 <= cooking_time data)%Z
     /\ (0 <= servings data)%Z)
  /\ (parse_recipe r self = Raises ->
      exists status tree,
        r = Http status (Some tree) /\ raise_for_status status = false
        /\ (_extract_cooking_time tree = Raises \/ _extract_servings tree = Raises)).
Proof.
  split.
  - intros data H.
    destruct (parse_some _ _ H)
      as (status & tree & -> & RS & T & TN & _ & _ & EI & EC & ES).
    split; [eauto|]. split; [assumption|].
    destruct (extract_ingredients_returns tree) as (l & El & Nl).
    assert (l = ingredients data) by congruence. subst l.
    repeat split.
    + assumption.
    + eapply extract_ingredients_forall;
        [exact parsed_sound|exact placeholders_sound|exact EI].
    + eapply cooking_time_nonneg. exact EC.
    + eapply servings_nonneg. exact ES.
  - destruct r as [| |status [tree|]];
      try (unfold parse_recipe, fetch_page; discriminate).
    destruct (raise_for_status status) eqn:RS.
    + unfold parse_recipe, fetch_page. rewrite RS. discriminate.
    + destruct (@parse_fetched tree status self RS) as (ins & ing & E). rewrite E.
      intros H. exists status, tree. repeat split; try assumption.
      destruct (_extract_cooking_time tree); [|now left].
      destruct (_extract_servings tree); [|now right].
      cbn [bind] in H. destruct (nonempty (_extract_title tree)); discriminate.
Qed.

Lemma X5_witness :
  exists data,
    parse_recipe (Http 200 (Some page_rich)) init = Returns (Some data)
    /\ title data <> [] /\ (0 <= cooking_time data)%Z.
Proof.
  eexists.
  assert (H : parse_recipe (Http 200 (Some page_rich)) init = Returns (Some
    {| title := u "Борщ"; description := u "Суп со свеклой";
       instructions := u "1. Нарезать свеклу соломкой";
       ingredients := placeholder_ingredients;
       cooking_time := 45; servings := 6 |})) by (vm_compute; reflexivity).
  pose proof (proj1 (X5_record_invariant (Http 200 (Some page_rich)) init) _ H)
    as (_ & T & _ & _ & C & _).
  exact (conj H (conj T C)).
Defined.

(** *** The title tag and its site suffix *)

Section TitleFacts.

(** A search that finds something finds a word of the pattern, between
    what it skipped and what it left. *)
Lemma search_from_sound (r : regex) : forall s skipped before c rest,
  search_from r skipped s = Some (before, c, rest) ->
  exists pre w, s = pre ++ w ++ rest /\ before = rev skipped ++ pre /\ lang r w.
Proof.
  induction s as [|x t IH]; intros skipped before c rest; cbn [search_from].
  - destruct (re_match r []) as [[c0 r0]|] eqn:E; [|discriminate].
    intros H. inversion H; subst. apply re_match_in in E. apply run_sound in E.
    destruct E as (w & E & L). exists [], w. rewrite app_nil_r. auto.
  - destruct (re_match r (x :: t)) as [[c0 r0]|] eqn:E.
    + intros H. inversion H; subst. apply re_match_in in E. apply run_sound in E.
      destruct E as (w & E & L). exists [], w. rewrite app_nil_r. auto.
    + intros H. apply IH in H. destruct H as (pre & w & -> & -> & L).
      exists (x :: pre), w. repeat split; [|assumption].
      cbn [rev]. now rewrite <- app_assoc.
Qed.

Lemma search_from_hit (r : regex) (s skipped : str) (c : caps) (rest : str) :
  re_match r s = Some (c, rest) ->
  search_from r skipped s = Some (rev skipped, c, rest).
Proof.
  intros H. destruct s; cbn [search_from]; now rewrite H.
Qed.

Lemma search_from_skip (r : regex) (s : str) : forall a skipped,
  (forall pre suf, a = pre ++ suf -> suf <> [] -> re_match r (suf ++ s) = None) ->
  search_from r skipped (a ++ s) = search_from r (rev a ++ skipped) s.
Proof.
  induction a as [|x a IH]; intros skipped H; [reflexivity|].
  cbn [app search_from].
  assert (E : re_match r (x :: a ++ s) = None)
    by (apply (H [] (x :: a)); [reflexivity|discriminate]).
  rewrite E. rewrite IH.
  - cbn [rev]. now rewrite <- app_assoc.
  - intros pre suf -> N. apply (H (x :: pre) suf); [reflexivity|assumption].
Qed.

(** A word of the title pattern holds a separator, behind white space
    only. *)
Lemma title_suffix_lang (w : str) :
  lang title_suffix w ->
  exists ws x tail, w = ws ++ x :: tail
    /\ forallb isspace ws = true /\ title_separator x = true.
Proof.
  unfold title_suffix. cbn [cat fold_right lang].
  intros (w1 & w2 & -> & L1 & (w3 & w4 & -> & (x & -> & Hx) & _)).
  exists w1, x, w4. auto.
Qed.

(** The pattern ends with [$]: a match leaves nothing, or one newline. *)
Lemma title_suffix_end (c : caps) (s : str) (c' : caps) (s' : str) :
  In (c', s') (run title_suffix c s) -> s' = [] \/ s' = [10%N].
Proof.
  unfold title_suffix. cbn [cat fold_right run]. intros H.
  do 4 (apply in_flat_map in H; destruct H as ([? ?] & _ & H); cbn [fst snd] in H).
  apply in_flat_map in H. destruct H as ([c5 s5] & E & H). cbn [fst snd] in H.
  destruct H as [H|[]]. inversion H; subst. clear H.
  destruct s3 as [|y [|z t]]; cbn in E.
  - destruct E as [E|[]]. inversion E. now left.
  - destruct (N.eqb y 10) eqn:Ey; cbn in E; [|contradiction].
    destruct E as [E|[]]. inversion E. apply N.eqb_eq in Ey. subst. now right.
  - contradiction.
Qed.

Lemma star_greedy_self (p : cp -> bool) (s : str) : In s (star_greedy p s).
Proof.
  destruct s as [|x t]; cbn [star_greedy]; [now left|].
  destruct (p x); [apply in_or_app; right|]; now left.
Qed.

Lemma star_greedy_in (p : cp -> bool) (s : str) : forall w,
  forallb p w = true -> In s (star_greedy p (w ++ s)).
Proof.
  induction w as [|x w IH]; cbn [forallb app]; intros H.
  - apply star_greedy_self.
  - apply andb_true_iff in H. destruct H as [Hx Hw]. cbn [star_greedy]. rewrite Hx.
    apply in_or_app. left. now apply IH.
Qed.

(** White space, a separator and a line of text: the pattern matches it to
    the end. *)
Lemma title_suffix_matches (w : str) (sep : cp) (b : str) :
  forallb isspace w = true -> title_separator sep = true ->
  b <> [] -> (forall x, In x b -> x <> 10%N) ->
  exists c, re_match title_suffix (w ++ sep :: b) = Some (c, []).
Proof.
  intros Hw Hsep Hb Hnl.
  assert (I : In ([], []) (run title_suffix [] (w ++ sep :: b))).
  { unfold title_suffix. cbn [cat fold_right run].
    apply in_flat_map. exists ([], sep :: b). split.
    { apply in_map. now apply star_greedy_in. }
    cbn [fst snd]. apply in_flat_map. exists ([], b). split.
    { unfold title_separator in Hsep. rewrite Hsep. now left. }
    cbn [fst snd]. apply in_flat_map. exists ([], b). split.
    { apply in_map. apply star_greedy_self. }
    cbn [fst snd]. apply in_flat_map. exists ([], []). split.
    { destruct b as [|y ys]; [contradiction|]. unfold plus. cbn [run].
      assert (Dy : dot y = true).
      { unfold dot. apply negb_true_iff. apply N.eqb_neq. apply Hnl. now left. }
      rewrite Dy. cbn [flat_map fst snd]. rewrite app_nil_r.
      apply in_map. rewrite <- (app_nil_r ys) at 1. apply star_greedy_in.
      apply forallb_forall. intros x Hx. unfold dot. apply negb_true_iff.
      apply N.eqb_neq. apply Hnl. now right. }
    cbn. now left. }
  unfold re_match. destruct (run title_suffix [] (w ++ sep :: b)) as [|[c rest] l] eqn:E;
    [contradiction|].
  assert (I' : In (c, rest) (run title_suffix [] (w ++ sep :: b)))
    by (rewrite E; now left).
  destruct (title_suffix_end _ _ _ _ I') as [-> | ->]; [now exists c|].
  exfalso. apply run_sound in I'. destruct I' as (m & Em & _).
  assert (L : In 10%N b).
  { destruct (exists_last Hb) as (b' & z & ->).
    assert (Ez : z = 10%N).
    { replace (w ++ sep :: b' ++ [z]) with ((w ++ sep :: b') ++ [z]) in Em
        by (now rewrite <- app_assoc).
      apply app_inj_tail in Em. tauto. }
    subst. apply in_or_app. right. now left. }
  exact (Hnl _ L eq_refl).
Qed.

(** Before the separator, inside text without one that does not end in
    white space, the pattern matches nowhere. *)
Lemma title_suffix_not_before (a tail : str) :
  (forall x, In x a -> title_separator x = false) ->
  (forall a' x, a = a' ++ [x] -> isspace x = false) ->
  forall pre suf, a = pre ++ suf -> suf <> [] ->
    re_match title_suffix (suf ++ tail) = None.
Proof.
  intros Hsep Hend pre suf -> N.
  destruct (re_match title_suffix (suf ++ tail)) as [[c rest]|] eqn:E; [|reflexivity].
  exfalso. apply re_match_in in E. apply run_sound in E. destruct E as (m & Em & L).
  apply title_suffix_lang in L. destruct L as (ws & x & t & -> & Hws & Hx).
  destruct (exists_last N) as (suf' & z & ->).
  assert (Hz : isspace z = false) by (apply (Hend (pre ++ suf') z); now rewrite app_assoc).
  assert (Sz : title_separator z = false)
    by (apply Hsep; apply in_or_app; right; apply in_or_app; right; now left).
  rewrite <- !app_assoc in Em. cbn [app] in Em.
  apply app_eq_app in Em. destruct Em as (l & [[E1 E2]|[E1 E2]]).
  - destruct l as [|y l]; cbn [app] in E2; inversion E2; subst.
    + congruence.
    + assert (Hy : title_separator y = false).
      { apply Hsep. apply in_or_app. right. apply in_or_app. left.
        apply in_or_app. right. now left. }
      congruence.
  - destruct l as [|y l]; cbn [app] in E2; inversion E2; subst.
    + congruence.
    + rewrite forallb_forall in Hws.
      assert (I : In y (suf' ++ y :: l)) by (apply in_or_app; right; now left).
      rewrite (Hws y I) in Hz. discriminate.
Qed.

Lemma sub_none (r : regex) (s : str) : re_search r s = None -> re_sub_empty r s = s.
Proof.
  intros H. unfold re_sub_empty. cbn [sub_empty_fuel]. now rewrite H.
Qed.

Lemma title_sub_unchanged (t : str) :
  (forall x, In x t -> title_separator x = false) ->
  re_sub_empty title_suffix t = t.
Proof.
  intros H. apply sub_none.
  destruct (re_search title_suffix t) as [[[before c] rest]|] eqn:E; [|reflexivity].
  exfalso. unfold re_search in E. apply search_from_sound in E.
  destruct E as (pre & w & -> & _ & L). apply title_suffix_lang in L.
  destruct L as (ws & x & tail & -> & _ & Hx).
  rewrite H in Hx; [discriminate|].
  apply in_or_app. right. apply in_or_app. left. apply in_or_app. right. now left.
Qed.

Lemma title_sub_cut (a w : str) (sep : cp) (b : str) :
  (forall x, In x a -> title_separator x = false) ->
  (forall a' x, a = a' ++ [x] -> isspace x = false) ->
  forallb isspace w = true -> title_separator sep = true ->
  b <> [] -> (forall x, In x b -> x <> 10%N) ->
  re_sub_empty title_suffix (a ++ w ++ sep :: b) = a.
Proof.
  intros Ha Hend Hw Hsep Hb Hnl.
  destruct (@title_suffix_matches w sep b Hw Hsep Hb Hnl) as (c & M).
  assert (S : re_search title_suffix (a ++ w ++ sep :: b) = Some (a, c, [])).
  { unfold re_search. rewrite search_from_skip.
    - rewrite (@search_from_hit _ _ (rev a ++ []) _ _ M). now rewrite app_nil_r, rev_involutive.
    - now apply title_suffix_not_before. }
  unfold re_sub_empty. cbn [sub_empty_fuel]. rewrite S.
  assert (Lt : Nat.ltb (length a + length (@nil cp)) (length (a ++ w ++ sep :: b)) = true).
  { apply Nat.ltb_lt. rewrite !length_app. cbn [length]. lia. }
  rewrite Lt.
  assert (Z : sub_empty_fuel (length (a ++ w ++ sep :: b)) title_suffix [] = []).
  { destruct (length (a ++ w ++ sep :: b)); reflexivity. }
  rewrite Z. apply app_nil_r.
Qed.

End TitleFacts.

(** X6: when no title selector finds an element and the text of the title
    tag holds none of the characters [|], [–] and [-], the title is that
    text, unchanged. *)
Theorem X6_title_without_separator (page tag : node) :
  (forall s, In s title_selectors -> select_one page s = None) ->
  find_tag page (u "title") = Some tag ->
  (forall x, In x (get_text_strip tag) -> title_separator x = false) ->
  _extract_title page = get_text_strip tag.
Proof.
  intros Hs Ht Hx. unfold _extract_title.
  rewrite (@title_loop_none page _ Hs), Ht. now apply title_sub_unchanged.
Qed.

(** X7: when no title selector finds an element and the text of the title
    tag is a part without separator that does not end in white space, then
    white space, a separator and at least one more character on the same
    line, the title is the first part: everything from the white space
    before the first [|], [–] or [-] on is cut, a hyphen inside a word
    included. *)
Theorem X7_title_suffix_cut (page tag : node) (a w : str) (sep : cp) (b : str) :
  (forall s, In s title_selectors -> select_one page s = None) ->
  find_tag page (u "title") = Some tag ->
  get_text_strip tag = a ++ w ++ sep :: b ->
  (forall x, In x a -> title_separator x = false) ->
  (forall a' x, a = a' ++ [x] -> isspace x = false) ->
  forallb isspace w = true -> title_separator sep = true ->
  b <> [] -> (forall x, In x b -> x <> 10%N) ->
  _extract_title page = a.
Proof.
  intros Hs Ht E Ha Hend Hw Hsep Hb Hnl. unfold _extract_title.
  rewrite (@title_loop_none page _ Hs), Ht, E. now apply title_sub_cut.
Qed.

Lemma page_lists_no_heading :
  forall s, In s title_selectors -> select_one page_lists s = None.
Proof.
  intros s I. vm_compute in I.
  repeat (destruct I as [<-|I]; [vm_compute; reflexivity|]). contradiction.
Qed.

Lemma page_titled_no_heading :
  forall s, In s title_selectors -> select_one page_titled s = None.
Proof.
  intros s I. vm_compute in I.
  repeat (destruct I as [<-|I]; [vm_compute; reflexivity|]). contradiction.
Qed.

Lemma X6_witness : _extract_title page_lists = u "Борщ".
Proof.
  assert (T : find_tag page_lists (u "title")
              = Some (el "title" [] [] [txt "Борщ"])) by (vm_compute; reflexivity).
  assert (S : forall x, In x (get_text_strip (el "title" [] [] [txt "Борщ"])) ->
                        title_separator x = false).
  { intros x I. vm_compute in I.
    repeat (destruct I as [<-|I]; [vm_compute; reflexivity|]). contradiction. }
  exact (X6_title_without_separator page_lists page_lists_no_heading T S).
Defined.

Lemma X7_witness : _extract_title page_titled = u "Борщ по".
Proof.
  assert (T : find_tag page_titled (u "title")
              = Some (el "title" [] [] [txt "Борщ по-украински | CookSite"]))
    by (vm_compute; reflexivity).
  assert (E : get_text_strip (el "title" [] [] [txt "Борщ по-украински | CookSite"])
              = u "Борщ по" ++ [] ++ ch "-" :: u "украински | CookSite")
    by (vm_compute; reflexivity).
  assert (A : forall x, In x (u "Борщ по") -> title_separator x = false).
  { intros x I. vm_compute in I.
    repeat (destruct I as [<-|I]; [vm_compute; reflexivity|]). contradiction. }
  assert (L : forall a' x, u "Борщ по" = a' ++ [x] -> isspace x = false).
  { intros a' x H. apply (f_equal (fun l => last l 0%N)) in H.
    rewrite last_last in H. subst x. vm_compute. reflexivity. }
  assert (B : forall x, In x (u "украински | CookSite") -> x <> 10%N).
  { intros x I. vm_compute in I.
    repeat (destruct I as [<-|I]; [discriminate|]). contradiction. }
  assert (N : u "украински | CookSite" <> []) by (vm_compute; discriminate).
  exact (@X7_title_suffix_cut page_titled _ (u "Борщ по") [] (ch "-")
           (u "украински | CookSite") page_titled_no_heading T E A L
           (eq_refl : forallb isspace [] = true)
           (eq_refl : title_separator (ch "-") = true) N B).
Defined.

(** *** The numbered steps *)

Section StepFacts.

Lemma steps_loop_numbered (items : list node) : forall i,
  steps_loop i items = numbered_steps i (map get_text_strip items).
Proof.
  induction items as [|step rest IH]; intros i; [reflexivity|].
  cbn [steps_loop]. unfold numbered_steps in *.
  cbn [map length seq combine filter snd fst]. rewrite IH.
  destruct (get_text_strip step) as [|x t] eqn:E; cbn [nonempty andb length]; [reflexivity|].
  destruct (Nat.ltb 10 (S (length t))); reflexivity.
Qed.

Lemma numbered_steps_short (i : nat) (t : str) (ts : list str) :
  length t <= 10 -> numbered_steps i (t :: ts) = numbered_steps (S i) ts.
Proof.
  intros H. unfold numbered_steps. cbn [length seq combine filter snd].
  apply Nat.ltb_ge in H. now rewrite H.
Qed.

Lemma numbered_steps_long (i : nat) (t : str) (ts : list str) :
  10 < length t ->
  numbered_steps i (t :: ts) = (of_nat i ++ u ". " ++ t) :: numbered_steps (S i) ts.
Proof.
  intros H. unfold numbered_steps. cbn [length seq combine filter snd].
  apply Nat.ltb_lt in H. rewrite H. reflexivity.
Qed.

End StepFacts.

(** X8: the steps of an instructions container are the texts of its list
    items and paragraphs that are longer than 10 characters, each behind
    its position among all the items, counted from 1: a short item that is
    left out still takes its number, so the numbers of the steps can have
    gaps. *)
Theorem X8_steps_numbered_by_position :
  (forall element,
      steps_of element =
        numbered_steps 1 (map get_text_strip (find_all element [u "li"; u "p"])))
  /\ (forall i t ts, length t <= 10 ->
        numbered_steps i (t :: ts) = numbered_steps (S i) ts)
  /\ (forall i t ts, 10 < length t ->
        numbered_steps i (t :: ts) = (of_nat i ++ u ". " ++ t) :: numbered_steps (S i) ts)
  /\ (forall element, length (steps_of element)
                      <= length (find_all element [u "li"; u "p"])).
Proof.
  repeat split.
  - intros element. apply steps_loop_numbered.
  - apply numbered_steps_short.
  - apply numbered_steps_long.
  - intros element. unfold steps_of. rewrite steps_loop_numbered. unfold numbered_steps.
    rewrite length_map. etransitivity; [apply filter_length_le|].
    rewrite length_combine, length_seq, length_map. lia.
Qed.

Lemma X8_witness :
  numbered_steps 1 [u "Вода"; u "Нарезать свеклу соломкой"]
  = [u "2. Нарезать свеклу соломкой"].
Proof.
  assert (S : length (u "Вода") <= 10) by (vm_compute; lia).
  assert (L : 10 < length (u "Нарезать свеклу соломкой")) by (vm_compute; lia).
  destruct X8_steps_numbered_by_position as (_ & Hs & Hl & _).
  etransitivity; [exact (Hs 1 _ _ S)|].
  etransitivity; [exact (Hl 2 _ [] L)|]. vm_compute. reflexivity.
Defined.

(** *** Pages without digits *)

Section DigitFacts.

Lemma walk_strings : forall n anc first l,
  In l (walk anc first n) -> incl (all_strings (here l)) (all_strings n).
Proof.
  intros n. induction n as [kind s|tag classes attrs kids IH] using node_induction;
    intros anc first l.
  - cbn [walk]. contradiction.
  - cbn [walk]. intros [<-|H]; [cbn [here]; apply incl_refl|].
    cbn [all_strings]. revert H.
    generalize ((Elem tag classes attrs kids, first) :: anc) as anc'.
    generalize (@nil str) as seen.
    induction IH as [|k ks Hk Hks IHks]; intros seen anc' H.
    + contradiction.
    + cbn [flat_map]. destruct k as [kind s|t cl at' ks0].
      * apply incl_appr. eapply IHks. exact H.
      * apply in_app_or in H. destruct H as [H|H].
        -- apply incl_appl. eapply Hk. exact H.
        -- apply incl_appr. eapply IHks. exact H.
Qed.

Lemma select_one_strings (page : node) (sel : selector) (e : node) :
  select_one page sel = Some e -> incl (all_strings e) (all_strings page).
Proof.
  unfold select_one. destruct (find (matches sel) (descendants page)) as [l|] eqn:E;
    [|discriminate].
  cbn [option_map]. intros H. inversion H; subst. apply find_some in E.
  destruct E as [I _]. unfold descendants in I.
  assert (I' : In l (walk [] true page)).
  { destruct (walk [] true page); [exact I|right; exact I]. }
  eapply walk_strings. exact I'.
Qed.

(** The text of an element is made of strings below it. *)
Lemma strings_among (n : node) (s : str) :
  In s (strings n) -> exists kind, In (kind, s) (all_strings n).
Proof.
  unfold strings. intros H. apply in_map_iff in H. destruct H as ([kind s'] & E & H).
  apply filter_In in H. destruct H as [H _]. cbn [snd] in E. subst. eauto.
Qed.

Lemma text_digit_free (page e : node) :
  incl (all_strings e) (all_strings page) ->
  (forall kind s x, In (kind, s) (all_strings page) -> In x s -> isdecimal x = false) ->
  forall x, In x (get_text e) -> isdecimal x = false.
Proof.
  intros Hi H x I. unfold get_text in I. apply in_concat in I.
  destruct I as (s & Is & Ix). destruct (strings_among _ _ Is) as (kind & Ik).
  exact (H kind s x (Hi _ Ik) Ix).
Qed.

(** A search for a pattern that starts with a digit finds nothing in a text
    without digits. *)
Lemma search_needs_digit (r : regex) (text : str) :
  starts_in (fun x => isdecimal x = true) r ->
  (forall x, In x text -> isdecimal x = false) ->
  re_search r text = None.
Proof.
  intros S H. destruct (re_search r text) as [[[before c] rest]|] eqn:E; [|reflexivity].
  exfalso. unfold re_search in E. apply search_from_sound in E.
  destruct E as (pre & w & -> & _ & L).
  destruct (@lang_starts _ r w S L) as (x & t & -> & Hx).
  rewrite H in Hx; [discriminate|].
  apply in_or_app. right. now left.
Qed.

Lemma number_loop_no_digit (page : node) (selectors : list selector) :
  (forall kind s x, In (kind, s) (all_strings page) -> In x s -> isdecimal x = false) ->
  number_loop selectors page = Returns None.
Proof.
  intros H. induction selectors as [|sel rest IH]; cbn [number_loop]; [reflexivity|].
  destruct (select_one page sel) as [e|] eqn:S; [|exact IH].
  rewrite search_needs_digit; [exact IH| |].
  - unfold digits_re, plus. cbn [starts_in]. auto.
  - apply (@text_digit_free page e); [|exact H]. eapply select_one_strings. exact S.
Qed.

End DigitFacts.

(** X9: on a page none of whose strings, of whatever class (the text of
    elements, scripts, styles and templates, comments), holds a decimal
    digit, the cooking time is the default 30 and the number of servings
    the default 4. *)
Theorem X9_defaults_without_digits (page : node) :
  (forall kind s x, In (kind, s) (all_strings page) -> In x s -> isdecimal x = false) ->
  _extract_cooking_time page = Returns 30%Z /\ _extract_servings page = Returns 4%Z.
Proof.
  intros H.
  assert (T : forall x, In x (get_text page) -> isdecimal x = false)
    by (apply (@text_digit_free page page); [apply incl_refl|exact H]).
  unfold _extract_cooking_time, _extract_servings, number_in_text.
  rewrite !number_loop_no_digit by assumption. cbn [bind].
  rewrite !search_needs_digit; try assumption; [split; reflexivity| |];
    unfold minutes_re, portions_re, plus; cbn [cat fold_right starts_in]; auto.
Qed.

Lemma X9_witness :
  _extract_cooking_time page_plain = Returns 30%Z
  /\ _extract_servings page_plain = Returns 4%Z.
Proof.
  assert (H : forall kind s x, In (kind, s) (all_strings page_plain) -> In x s ->
                               isdecimal x = false).
  { intros kind s x I. vm_compute in I. destruct I as [I|[]]. inversion I; subst.
    intros J. repeat (destruct J as [<-|J]; [vm_compute; reflexivity|]). contradiction. }
  exact (X9_defaults_without_digits page_plain H).
Defined.

(** *** The first container that yields *)

Section ContainerFacts.

Variable page : node.

Lemma ingredients_loop_first (before : list selector) (sel : selector)
  (after : list selector) (l : list ingredient) :
  (forall s, In s before -> container_yield page s = Returns []) ->
  container_yield page sel = Returns l -> l <> [] ->
  ingredients_loop (before ++ sel :: after) page [] = Returns (inl l).
Proof.
  intros Hb Hs Hl. induction before as [|b before IH]; cbn [app ingredients_loop].
  - unfold container_yield in Hs. destruct (select_one page sel) as [e|].
    + rewrite Hs. cbn [bind]. destruct l; [contradiction|reflexivity].
    + inversion Hs. congruence.
  - assert (IH' : ingredients_loop (before ++ sel :: after) page [] = Returns (inl l))
      by (apply IH; intros s I; apply Hb; now right).
    pose proof (Hb b (or_introl eq_refl)) as Hn. unfold container_yield in Hn.
    destruct (select_one page b) as [e|]; [|exact IH'].
    rewrite Hn. cbn [bind]. exact IH'.
Qed.

End ContainerFacts.

(** X10: the ingredient list is what the first container selector that
    yields a parsed item yields, alone: the containers after it and the
    elements of the class pattern add nothing to it.  When no container
    yields an item, the list is what the class pattern yields, if that is
    not empty. *)
Theorem X10_first_container_wins (page : node) :
  (forall before selector after l,
      ingredients_selectors = before ++ selector :: after ->
      (forall s, In s before -> container_yield page s = Returns []) ->
      container_yield page selector = Returns l -> l <> [] ->
      _extract_ingredients page = Returns l)
  /\ (forall l,
        (forall s, In s ingredients_selectors -> container_yield page s = Returns []) ->
        class_pattern_yield page = Returns l -> l <> [] ->
        _extract_ingredients page = Returns l).
Proof.
  split.
  - intros before sel after l E Hb Hs Hl. unfold _extract_ingredients.
    rewrite E, (@ingredients_loop_first page before sel after l Hb Hs Hl). reflexivity.
  - intros l Hc Hp Hl. unfold _extract_ingredients.
    rewrite (@ingredients_loop_nothing page _ Hc). cbn [bind].
    unfold class_pattern_yield in Hp. rewrite Hp. cbn [bind].
    destruct l; [contradiction|reflexivity].
Qed.

Lemma X10_witness :
  _extract_ingredients page_lists =
    Returns [ {| name := u "свеклы"; quantity := u "500"; unit := u "г" |};
              {| name := u "Соль"; quantity := u "1"; unit := u "ч.л." |} ].
Proof.
  refine (proj1 (X10_first_container_wins page_lists)
            (firstn 2 ingredients_selectors)
            (nth 2 ingredients_selectors (Selector "" []))
            (skipn 3 ingredients_selectors) _ _ _ _ _).
  - vm_compute. reflexivity.
  - intros s I. vm_compute in I.
    repeat (destruct I as [<-|I]; [vm_compute; reflexivity|]). contradiction.
  - vm_compute. reflexivity.
  - discriminate.
Defined.
